(** * STM32 FreeRTOS general application: the task-orchestration layer of main.c

    A shallow embedding of [src/main.c]: the timed line reader
    [xReceiveUartMsg], the number parser [lUartMsgtoInt32], the calculator,
    the clock's set-date-and-time flow, the temperature monitor's extrema
    tracking, the LED timer handle, the sleep/wake interrupt handler and the
    notification handoff between the Main Menu task and the sub-application
    tasks.

    The file has three parts: the model of the code, the notions used to
    state its properties, and the properties with their proofs. *)

From Stdlib Require Import ZArith Lia Bool List.
From Stdlib Require Import Floats.SpecFloat.
From stdpp Require Import base tactics option list numbers gmap.

Local Open Scope Z_scope.

(** * Part I: the model *)

(** ** Machine integers *)

Module Int.

(** [uint32_t] arithmetic: results are reduced modulo 2^32. *)
Definition wrap_u32 (x : Z) : Z := x mod 2 ^ 32.

(** [int32_t] arithmetic in two's complement, as the Cortex-M4 computes it. *)
Definition wrap_s32 (x : Z) : Z := (x + 2 ^ 31) mod 2 ^ 32 - 2 ^ 31.

(** Conversion to [uint8_t]. *)
Definition wrap_u8 (x : Z) : Z := x mod 2 ^ 8.

Definition INT32_MIN : Z := - 2 ^ 31.
Definition INT32_MAX : Z := 2 ^ 31 - 1.

(** [#define INVALID_NUM (int32_t)0xFFFFFFFF] *)
Definition INVALID_NUM : Z := wrap_s32 4294967295.

End Int.

(** ** Characters of the console protocol (ASCII codes held in a [char]) *)

Module Chr.

Definition NUL : Z := 0.
Definition CR : Z := 13.       (* '\r' *)
Definition star : Z := 42.     (* '*' *)
Definition plus : Z := 43.     (* '+' *)
Definition minus : Z := 45.    (* '-' *)
Definition slash : Z := 47.    (* '/' *)
Definition zero : Z := 48.     (* '0' *)
Definition nine : Z := 57.     (* '9' *)
Definition upper_Q : Z := 81.  (* 'Q' *)
Definition lower_q : Z := 113. (* 'q' *)

(** [c >= '0' && c <= '9'] *)
Definition is_digit (c : Z) : bool := (zero <=? c) && (c <=? nine).

(** [c == 'q' || c == 'Q'] *)
Definition is_quit_letter (c : Z) : bool := (c =? lower_q) || (c =? upper_Q).

End Chr.

(** ** The world the tasks act on *)

(** Messages whose address a task posts to [xUartWriteQueue]. The texts are
    string literals of main.c, or a buffer filled by [sprintf]; the model
    names each one and keeps the number that is formatted. *)
Inductive uart_msg : Type :=
  | MsgMainMenu
  | MsgUnrecognizedOption          (* "Error: Unrecognized option selected" *)
  | MsgUserInputTimeout            (* "User input timeout..." *)
  | MsgClockMenu
  | MsgCalcFirstInteger            (* "Enter the first integer = " *)
  | MsgCalcSecondInteger           (* "Enter the second integer = " *)
  | MsgCalcOperator                (* "Enter the operator (+ - * /) = " *)
  | MsgCalcResult (lCalcNum : Z)   (* "The calculated integer is %ld" *)
  | MsgUnrecognizedOperator        (* "Error: Unrecognized mathematical operator ..." *)
  | MsgTimeHour                    (* "Configuring the time / Enter the hour ..." *)
  | MsgTimeMinute                  (* "Enter the minute" *)
  | MsgTimeSecond                  (* "Enter the second" *)
  | MsgDateDay                     (* "Configuring the date / Enter the day ..." *)
  | MsgDateMonth                   (* "Enter the month" *)
  | MsgDateYear                    (* "Enter the year" *)
  | MsgDateWeekDay                 (* "Enter the day of the week" *)
  | MsgRtcSetDateError             (* "RTC set date error" *)
  | MsgWentToSleep                 (* "Went to sleep" *)
  | MsgWokeUp.                     (* "Woke up from sleep mode" *)

(** [RTC_TimeTypeDef] and [RTC_DateTypeDef], the fields main.c fills. *)
Record RTC_TimeTypeDef : Type := RtcTime {
  RTC_Hours : Z;
  RTC_Minutes : Z;
  RTC_Seconds : Z
}.

Record RTC_DateTypeDef : Type := RtcDate {
  RTC_WeekDay : Z;
  RTC_Month : Z;
  RTC_Date : Z;
  RTC_Year : Z
}.

(** A write applied to the clock service. *)
Inductive rtc_write : Type :=
  | WroteTime (t : RTC_TimeTypeDef)
  | WroteDate (d : RTC_DateTypeDef).

(** What can stop a C function short of its return. *)
Inductive fault : Type :=
  | DivisionByZero
  | DivisionOverflow
  | BufferOverrun
  | NullDereference.

(** The console, the tick counter, the output queue and the clock service.
    A byte of [rx] is a pair [(wait, data)]: the USART sets RXNE [wait] ticks
    after the reader starts polling for it, with [data] in the data register.
    When [rx] is empty no byte will ever arrive. *)
Record world : Type := World {
  tick : Z;                    (* the tick count, a TickType_t *)
  rx : list (Z * Z);           (* bytes still to arrive on USART2 *)
  uart_queue : list uart_msg;  (* everything sent to xUartWriteQueue, oldest first *)
  rtc_ready : bool;            (* whether the RTC enters its init mode *)
  rtc_writes : list rtc_write  (* writes applied to the RTC, oldest first *)
}.

(** The outcome of running a piece of task code: it returns, it stays in a
    polling loop for ever, or it faults. *)
Inductive result (A : Type) : Type :=
  | Done (a : A) (w : world)
  | Blocked (w : world)
  | Trap (f : fault) (w : world).
Arguments Done {A} a w.
Arguments Blocked {A} w.
Arguments Trap {A} f w.

(** Task code: a state and error monad over the world. *)
Definition task (A : Type) : Type := world -> result A.

#[global] Instance task_ret : MRet task := fun A a w => Done a w.
#[global] Instance task_bind : MBind task := fun A B f m w =>
  match m w with
  | Done a w' => f a w'
  | Blocked w' => Blocked w'
  | Trap e w' => Trap e w'
  end.

Definition final_world {A} (r : result A) : world :=
  match r with Done _ w | Blocked w | Trap _ w => w end.

Definition returned {A} (r : result A) : bool :=
  match r with Done _ _ => true | _ => false end.

(** The world with one more message in the queue. *)
Definition post (m : uart_msg) (w : world) : world :=
  World (tick w) (rx w) (uart_queue w ++ [m]) (rtc_ready w) (rtc_writes w).

(** [xQueueSend( xUartWriteQueue, &pcData, portMAX_DELAY )]: the write task
    has the higher priority and drains the queue, so the send completes. *)
Definition xQueueSend (m : uart_msg) : task unit := fun w => Done tt (post m w).

(** [vPostMsgToUartQueue] *)
Definition vPostMsgToUartQueue (m : uart_msg) : task unit := xQueueSend m.

(** FreeRTOSConfig.h is not among the sources: the tick rate is a parameter
    of the development. *)
Class Config : Type := { configTICK_RATE_HZ : Z }.

(** Modelled from the spec: the 30-second deadline is counted in ticks; the
    kernel's macro [pdMS_TO_TICKS], whose header is not among the sources,
    converts milliseconds to ticks in [TickType_t] arithmetic. *)
Definition pdMS_TO_TICKS `{Config} (ms : Z) : Z :=
  Int.wrap_u32 (Int.wrap_u32 (ms * configTICK_RATE_HZ) / 1000).

(** ** The timed line reader *)

Module Uart.
Section Reader.
Context `{Config}.

(** The [while] loop of [xReceiveUartMsg]. [pending] is the console input,
    [now] the tick count, [ucDataByte] the last byte read (it becomes
    [ucPrvDataByte]), [usMsgLen] the write index, [buf] the caller's
    buffer, [quit] the caller's flag. The loop ends by its condition, by
    [break] at a carriage return, or never (no byte arrives and the RXNE
    poll spins). The source tests no bound on [usMsgLen]: this model, which
    holds the buffer and nothing of the memory around it, follows a run up
    to its first store past the end of the buffer and stops there with
    [Trap BufferOverrun]; what the loop does from there on is in
    [Flat.receive_at]. ([usMsgLen] is a [uint16_t]; it leaves a buffer of at
    most 65535 bytes before it wraps.) *)
Fixpoint receive_loop (deadline : Z) (pending : list (Z * Z)) (now : Z)
    (ucDataByte : Z) (usMsgLen : nat) (buf : list Z) (quit : bool)
    (w : world) : result (list Z * bool) :=
  let at_ (t : Z) (p : list (Z * Z)) : world :=
    World t p (uart_queue w) (rtc_ready w) (rtc_writes w) in
  if now <? deadline then
    match pending with
    | [] => Blocked (at_ now [])
    | (wait, data) :: rest =>
        let now' := Int.wrap_u32 (now + wait) in
        let ucPrvDataByte := ucDataByte in
        let ucDataByte' := Z.land data 255 in
        if negb (ucDataByte' =? Chr.CR) then
          if (usMsgLen <? length buf)%nat then
            receive_loop deadline rest now' ucDataByte' (S usMsgLen)
              (<[usMsgLen := ucDataByte']> buf) quit w
          else Trap BufferOverrun (at_ now' rest)
        else
          Done (buf, quit || Chr.is_quit_letter ucPrvDataByte) (at_ now' rest)
    end
  else Done (buf, quit) (at_ now pending).

(** [xTaskGetTickCount()] *)
Definition xTaskGetTickCount : task Z := fun w => Done (tick w) w.

(** The loop, started on the console and the tick count of the world. *)
Definition receive (deadline : Z) (pcMsgBuffer : list Z) (quit : bool)
    : task (list Z * bool) := fun w =>
  receive_loop deadline (rx w) (tick w) 0 0%nat pcMsgBuffer quit w.

(** [xReceiveUartMsg(pcMsgBuffer, pxQuitCurrentApp)]: returns
    [xReadSuccess] with the buffer and the flag as the call leaves them. *)
Definition xReceiveUartMsg (pcMsgBuffer : list Z) (xQuitCurrentApp : bool)
    : task (bool * list Z * bool) :=
  xCurrentTickCount ← xTaskGetTickCount;
  let deadline := Int.wrap_u32 (xCurrentTickCount + pdMS_TO_TICKS 30000) in
  '(buf, quit) ← receive deadline pcMsgBuffer xQuitCurrentApp;
  now ← xTaskGetTickCount;
  if now <? deadline then mret (true, buf, quit)
  else
    _ ← xQueueSend MsgUserInputTimeout;
    mret (false, buf, quit).

(** [memset(&cUartMsg, 0, sizeof(cUartMsg))] *)
Definition memset0 (size : nat) : list Z := replicate size 0.

(** The [while] loop of [lUartMsgtoInt32] over the bytes from
    [pcUartMsg[i]] on. Reading past the end of the buffer is a fault. *)
Fixpoint digits_loop (msg : list Z) (i : nat) (ulNum : Z) : option (nat * Z) :=
  match msg with
  | [] => None
  | c :: rest =>
      if Chr.is_digit c
      then digits_loop rest (S i) (Int.wrap_s32 (ulNum * 10 + (c - 48)))
      else Some (i, ulNum)
  end.

(** [lUartMsgtoInt32]: the number, or [None] when the loop reads past the
    end of the buffer. *)
Definition lUartMsgtoInt32 (pcUartMsg : list Z) : option Z :=
  '(i, ulNum) ← digits_loop pcUartMsg 0 0;
  if (0 <? i)%nat then Some ulNum else Some Int.INVALID_NUM.

(** A computation on memory inside a task. The model follows a run up to
    its first access past the end of a buffer and stops there with
    [Trap BufferOverrun]: it says nothing of what the code does after it. *)
Definition in_bounds {A} (r : option A) : task A := fun w =>
  match r with
  | Some a => Done a w
  | None => Trap BufferOverrun w
  end.

(** The [%ld] conversion of [sprintf], which the standard library provides:
    the decimal digits of a [long], most significant first, after a minus
    sign when the number is negative. Ten digits are enough for 32 bits. *)
Fixpoint decimal_digits (fuel : nat) (n : Z) (acc : list Z) : list Z :=
  match fuel with
  | O => acc
  | S fuel' =>
      let acc' := (Chr.zero + n mod 10) :: acc in
      if n <? 10 then acc' else decimal_digits fuel' (n / 10) acc'
  end.

Definition sprintf_ld (n : Z) : list Z :=
  if n <? 0 then Chr.minus :: decimal_digits 10 (- n) []
  else decimal_digits 10 n [].

End Reader.
End Uart.

(** ** The calculator task *)

Module Calculator.
Import Uart.
Section Task.
Context `{Config}.

(** [lFirstNum / lSecondNum] on [int32_t]: C defines no result for a zero
    divisor, nor for [INT32_MIN / -1]. *)
Definition sdiv32 (a b : Z) : task Z := fun w =>
  if b =? 0 then Trap DivisionByZero w
  else if (a =? Int.INT32_MIN) && (b =? -1) then Trap DivisionOverflow w
  else Done (Z.quot a b) w.

(** The [switch( cUartMsg[0] )] of [vCalculatorTaskFunction]. *)
Definition calculate (op lFirstNum lSecondNum : Z) : task unit :=
  if op =? Chr.plus then
    xQueueSend (MsgCalcResult (Int.wrap_s32 (lFirstNum + lSecondNum)))
  else if op =? Chr.minus then
    xQueueSend (MsgCalcResult (Int.wrap_s32 (lFirstNum - lSecondNum)))
  else if op =? Chr.star then
    xQueueSend (MsgCalcResult (Int.wrap_s32 (lFirstNum * lSecondNum)))
  else if op =? Chr.slash then
    lCalcNum ← sdiv32 lFirstNum lSecondNum;
    xQueueSend (MsgCalcResult lCalcNum)
  else vPostMsgToUartQueue MsgUnrecognizedOperator.

(** One turn of the [while(1)] loop of [vCalculatorTaskFunction], up to the
    test of [xQuitCurrentApp] at its end; the flag is returned. *)
Definition calculator_round (xQuitCurrentApp : bool) : task bool :=
  _ ← xQueueSend MsgCalcFirstInteger;
  '(xReadSuccess, cUartMsg, xQuitCurrentApp) ←
      xReceiveUartMsg (memset0 50) xQuitCurrentApp;
  lFirstNum ← in_bounds (lUartMsgtoInt32 cUartMsg);
  if xReadSuccess && negb xQuitCurrentApp && negb (lFirstNum =? Int.INVALID_NUM) then
    _ ← xQueueSend MsgCalcSecondInteger;
    '(xReadSuccess, cUartMsg, xQuitCurrentApp) ←
        xReceiveUartMsg (memset0 50) xQuitCurrentApp;
    lSecondNum ← in_bounds (lUartMsgtoInt32 cUartMsg);
    if xReadSuccess && negb xQuitCurrentApp && negb (lSecondNum =? Int.INVALID_NUM) then
      _ ← xQueueSend MsgCalcOperator;
      '(xReadSuccess, cUartMsg, xQuitCurrentApp) ←
          xReceiveUartMsg (memset0 50) xQuitCurrentApp;
      if xReadSuccess && negb xQuitCurrentApp then
        _ ← calculate (cUartMsg !!! 0%nat) lFirstNum lSecondNum;
        mret xQuitCurrentApp
      else mret xQuitCurrentApp
    else mret xQuitCurrentApp
  else mret xQuitCurrentApp.

End Task.
End Calculator.

(** ** The clock task: setting the date and the time *)

Module Clock.
Import Uart.
Section Task.
Context `{Config}.

(** Modelled from the spec: the range macros [IS_RTC_DATE], [IS_RTC_MONTH]
    and [IS_RTC_WEEKDAY] of the peripheral library header, which is not
    among the sources; day, month and weekday are validated per calendar
    rules (weekdays are entered as 1 for Monday to 7 for Sunday). *)
Definition IS_RTC_DATE (d : Z) : bool := (1 <=? d) && (d <=? 31).
Definition IS_RTC_MONTH (m : Z) : bool := (1 <=? m) && (m <=? 12).
Definition IS_RTC_WEEKDAY (d : Z) : bool := (1 <=? d) && (d <=? 7).

Definition between (lo hi v : Z) : bool := (lo <=? v) && (v <=? hi).

(** [RTC_SetTime( RTC_Format_BIN, &xTimeConfig )]; its status is not read. *)
Definition RTC_SetTime (t : RTC_TimeTypeDef) : task unit := fun w =>
  if rtc_ready w
  then Done tt (World (tick w) (rx w) (uart_queue w) (rtc_ready w)
                      (rtc_writes w ++ [WroteTime t]))
  else Done tt w.

(** [RTC_SetDate( RTC_Format_BIN, &xDateConfig )], returning whether the
    status is [SUCCESS]. *)
Definition RTC_SetDate (d : RTC_DateTypeDef) : task bool := fun w =>
  if rtc_ready w
  then Done true (World (tick w) (rx w) (uart_queue w) (rtc_ready w)
                        (rtc_writes w ++ [WroteDate d]))
  else Done false w.

(** The first half of [vSetDateAndTime]: hour, minute, second. *)
Definition set_time_steps (xQuitCurrentApp : bool) : task bool :=
  _ ← xQueueSend MsgTimeHour;
  '(xReadSuccess, cUartMsg, xQuitCurrentApp) ←
      xReceiveUartMsg (memset0 50) xQuitCurrentApp;
  lUsersInput ← in_bounds (lUartMsgtoInt32 cUartMsg);
  if xReadSuccess && negb xQuitCurrentApp && between 0 23 lUsersInput then
    let hours := lUsersInput in
    _ ← xQueueSend MsgTimeMinute;
    '(xReadSuccess, cUartMsg, xQuitCurrentApp) ←
        xReceiveUartMsg (memset0 50) xQuitCurrentApp;
    lUsersInput ← in_bounds (lUartMsgtoInt32 cUartMsg);
    if xReadSuccess && negb xQuitCurrentApp && between 0 59 lUsersInput then
      let minutes := lUsersInput in
      _ ← xQueueSend MsgTimeSecond;
      '(xReadSuccess, cUartMsg, xQuitCurrentApp) ←
          xReceiveUartMsg (memset0 50) xQuitCurrentApp;
      lUsersInput ← in_bounds (lUartMsgtoInt32 cUartMsg);
      if xReadSuccess && negb xQuitCurrentApp && between 0 59 lUsersInput then
        _ ← RTC_SetTime (RtcTime hours minutes lUsersInput);
        mret xQuitCurrentApp
      else mret xQuitCurrentApp
    else mret xQuitCurrentApp
  else mret xQuitCurrentApp.

(** The second half of [vSetDateAndTime], entered when the flag behind
    [pxQuitCurrentApp] is [pdFALSE]: day, month, year, weekday. *)
Definition set_date_steps (xQuitCurrentApp : bool) : task bool :=
  _ ← xQueueSend MsgDateDay;
  '(xReadSuccess, cUartMsg, xQuitCurrentApp) ←
      xReceiveUartMsg (memset0 50) xQuitCurrentApp;
  lUsersInput ← in_bounds (lUartMsgtoInt32 cUartMsg);
  if xReadSuccess && negb xQuitCurrentApp && IS_RTC_DATE lUsersInput then
    let day := lUsersInput in
    _ ← xQueueSend MsgDateMonth;
    '(xReadSuccess, cUartMsg, xQuitCurrentApp) ←
        xReceiveUartMsg (memset0 50) xQuitCurrentApp;
    lUsersInput ← in_bounds (lUartMsgtoInt32 cUartMsg);
    if xReadSuccess && negb xQuitCurrentApp && IS_RTC_MONTH lUsersInput then
      let month := lUsersInput in
      _ ← xQueueSend MsgDateYear;
      '(xReadSuccess, cUartMsg, xQuitCurrentApp) ←
          xReceiveUartMsg (memset0 50) xQuitCurrentApp;
      lUsersInput ← in_bounds (lUartMsgtoInt32 cUartMsg);
      if xReadSuccess && negb xQuitCurrentApp && between 0 99 lUsersInput then
        let year := lUsersInput in
        _ ← xQueueSend MsgDateWeekDay;
        '(xReadSuccess, cUartMsg, xQuitCurrentApp) ←
            xReceiveUartMsg (memset0 50) xQuitCurrentApp;
        lUsersInput ← in_bounds (lUartMsgtoInt32 cUartMsg);
        if xReadSuccess && negb xQuitCurrentApp && IS_RTC_WEEKDAY lUsersInput then
          success ← RTC_SetDate (RtcDate lUsersInput month day year);
          if (success : bool) then mret xQuitCurrentApp
          else
            _ ← xQueueSend MsgRtcSetDateError;
            mret xQuitCurrentApp
        else mret xQuitCurrentApp
      else mret xQuitCurrentApp
    else mret xQuitCurrentApp
  else mret xQuitCurrentApp.

(** [vSetDateAndTime( pxQuitCurrentApp )]; the flag behind the pointer is
    returned. *)
Definition vSetDateAndTime (xQuitCurrentApp : bool) : task bool :=
  xQuitCurrentApp ← set_time_steps xQuitCurrentApp;
  if negb xQuitCurrentApp then set_date_steps xQuitCurrentApp
  else mret xQuitCurrentApp.

End Task.
End Clock.

(** ** The temperature monitor task *)

Module TempMonitor.

(** Temperatures are C [float]s: IEEE 754 values, compared with [SFltb],
    which is false whenever an operand is not a number. *)
Definition temperature : Type := spec_float.

Definition temp_0 : temperature := S754_zero false.               (* 0.0 *)
Definition temp_100 : temperature := S754_finite false 13107200 (-17). (* 100.0 *)

(** The locals of [vTempMonitorTaskFunction] that make the record. *)
Record temp_record : Type := TempRecord {
  fHighestTemp : temperature;
  fLowestTemp : temperature;
  xDateForHTemp : RTC_DateTypeDef;
  xTimeForHTemp : RTC_TimeTypeDef;
  xDateForLTemp : RTC_DateTypeDef;
  xTimeForLTemp : RTC_TimeTypeDef
}.

(** What one cycle acquires: [RTC_GetTime], [RTC_GetDate], [fMeasureTemp]. *)
Record reading : Type := Reading {
  xCurrentTime : RTC_TimeTypeDef;
  xCurrentDate : RTC_DateTypeDef;
  fCurrentTemp : temperature
}.

Definition zero_date : RTC_DateTypeDef := RtcDate 0 0 0 0.
Definition zero_time : RTC_TimeTypeDef := RtcTime 0 0 0.

(** "Reset temperature stats" *)
Definition reset_stats : temp_record :=
  TempRecord temp_0 temp_100 zero_date zero_time zero_date zero_time.

(** The [if ... else if ...] that follows the measurement. *)
Definition track (r : reading) (s : temp_record) : temp_record :=
  if SFltb (fHighestTemp s) (fCurrentTemp r) then
    TempRecord (fCurrentTemp r) (fLowestTemp s)
               (xCurrentDate r) (xCurrentTime r)
               (xDateForLTemp s) (xTimeForLTemp s)
  else if SFltb (fCurrentTemp r) (fLowestTemp s) then
    TempRecord (fHighestTemp s) (fCurrentTemp r)
               (xDateForHTemp s) (xTimeForHTemp s)
               (xCurrentDate r) (xCurrentTime r)
  else s.

(** The statistics the task posts when [xShowTemps] is set. *)
Inductive temp_report : Type :=
  | CurrentTemp (d : RTC_DateTypeDef) (t : RTC_TimeTypeDef) (v : temperature)
  | HighestTemp (d : RTC_DateTypeDef) (t : RTC_TimeTypeDef) (v : temperature)
  | LowestTemp (d : RTC_DateTypeDef) (t : RTC_TimeTypeDef) (v : temperature).

(** What the other tasks did to the shared flags, as one cycle sees it: the
    value of [xRunTempMonitor] at the top of the loop, whether a notification
    is there for [xTaskNotifyWait], and [xShowTemps] after the delay. *)
Record cycle_env : Type := CycleEnv {
  xRunTempMonitor : bool;
  notification : bool;
  xShowTemps : bool
}.

(** One turn of the [while(1)] loop of [vTempMonitorTaskFunction]: the
    record it leaves and what it posts, or [None] when the task stays
    blocked in [xTaskNotifyWait]. *)
Definition monitor_cycle (e : cycle_env) (r : reading) (s : temp_record)
    : option (temp_record * list temp_report) :=
  s1 ← (if xRunTempMonitor e then Some s
        else if notification e then Some reset_stats else None);
  let s2 := track r s1 in
  Some (s2,
        if xShowTemps e then
          [ CurrentTemp (xCurrentDate r) (xCurrentTime r) (fCurrentTemp r);
            HighestTemp (xDateForHTemp s2) (xTimeForHTemp s2) (fHighestTemp s2);
            LowestTemp (xDateForLTemp s2) (xTimeForLTemp s2) (fLowestTemp s2) ]
        else []).

(** The task's loop over the cycles it is given: the record it holds after
    each turn, up to a turn in which it stays blocked. A monitoring session
    is a stretch of turns that find [xRunTempMonitor] set. *)
Fixpoint monitor_run (s : temp_record) (cycles : list (cycle_env * reading))
    : list temp_record :=
  match cycles with
  | [] => []
  | (e, r) :: rest =>
      match monitor_cycle e r s with
      | Some (s', _) => s' :: monitor_run s' rest
      | None => []
      end
  end.

End TempMonitor.

(** ** The LED timer, sleep mode and the wake interrupt *)

Module Board.

(** Commands a task sends to the timer command queue. *)
Inductive timer_cmd : Type :=
  | CmdStart (h : nat)
  | CmdStop (h : nat)
  | CmdDelete (h : nat).

Record timer : Type := Timer { period : Z; running : bool }.

(** The globals of main.c that the LED, sleep and interrupt code touches,
    with the timers the timer service holds. A handle is the address of a
    timer; a handle outside [timers] points at freed storage. *)
Record board : Type := Board_ {
  pxLedToggleTimer : option nat;
  timers : gmap nat timer;
  timer_cmds : list timer_cmd;
  led_on : bool;                 (* GPIOA pin 5 *)
  xRunTempMonitor : bool;
  xGoToSleep : bool;
  usart2_rxne_it : bool;         (* RXNE interrupt enabled, USART2 and NVIC *)
  usart2_rxne_pending : bool;    (* RXNE interrupt pending bit *)
  main_menu_notifications : nat; (* notifications delivered to the Main Menu task *)
  yields : nat;                  (* taskYIELD() requests *)
  posted : list uart_msg
}.

Definition set_timer (b : board) (h : option nat) (ts : gmap nat timer)
    (cmds : list timer_cmd) (led : bool) : board :=
  Board_ h ts cmds led (xRunTempMonitor b) (xGoToSleep b) (usart2_rxne_it b)
         (usart2_rxne_pending b) (main_menu_notifications b) (yields b) (posted b).

(** [xTimerCreate( "LED-TIMER", period, pdTRUE, NULL, vLedToggle )]: a new
    timer, dormant, at an address not in use (storage is taken to be
    available). *)
Definition xTimerCreate (ulToggleDuration : Z) (b : board) : nat * board :=
  let h := fresh (dom (timers b)) in
  (h, set_timer b (pxLedToggleTimer b)
        (<[h := Timer ulToggleDuration false]> (timers b))
        (timer_cmds b) (led_on b)).

Definition set_running (r : bool) (t : timer) : timer := Timer (period t) r.

(** [xTimerStart], [xTimerStop], [xTimerDelete] with [portMAX_DELAY]: the
    command is queued and the timer service applies it. *)
Definition xTimerStart (h : nat) (b : board) : board :=
  set_timer b (pxLedToggleTimer b) (alter (set_running true) h (timers b))
    (timer_cmds b ++ [CmdStart h]) (led_on b).

Definition xTimerStop (h : nat) (b : board) : board :=
  set_timer b (pxLedToggleTimer b) (alter (set_running false) h (timers b))
    (timer_cmds b ++ [CmdStop h]) (led_on b).

Definition xTimerDelete (h : nat) (b : board) : board :=
  set_timer b (pxLedToggleTimer b) (delete h (timers b))
    (timer_cmds b ++ [CmdDelete h]) (led_on b).

(** [vLedToggleEnable] *)
Definition vLedToggleEnable (ulToggleDuration : Z) (b : board) : board :=
  match pxLedToggleTimer b with
  | None =>
      let '(h, b1) := xTimerCreate ulToggleDuration b in
      let b2 := set_timer b1 (Some h) (timers b1) (timer_cmds b1) (led_on b1) in
      xTimerStart h b2
  | Some h => xTimerStart h b
  end.

(** [vLedToggleDisable] *)
Definition vLedToggleDisable (b : board) : board :=
  match pxLedToggleTimer b with
  | Some h =>
      let b1 := xTimerStop h b in
      set_timer b1 (pxLedToggleTimer b1) (timers b1) (timer_cmds b1) false
  | None => b
  end.

(** [vManageAppSleep] up to its [xTaskNotifyWait], where the Main Menu task
    blocks. *)
Definition vManageAppSleep_suspend (b : board) : board :=
  let b1 :=
    match pxLedToggleTimer b with
    | Some h => xTimerDelete h (vLedToggleDisable b)
    | None => b
    end in
  Board_ (pxLedToggleTimer b1) (timers b1) (timer_cmds b1) (led_on b1)
         false                      (* xRunTempMonitor = pdFALSE *)
         true                       (* xGoToSleep = pdTRUE *)
         true                       (* USART_ITConfig ENABLE, NVIC_EnableIRQ *)
         (usart2_rxne_pending b1) (main_menu_notifications b1) (yields b1)
         (posted b1 ++ [MsgWentToSleep]).

(** [vManageAppSleep] from the return of its [xTaskNotifyWait]. *)
Definition vManageAppSleep_resume (b : board) : board :=
  Board_ (pxLedToggleTimer b) (timers b) (timer_cmds b) (led_on b)
         (xRunTempMonitor b) (xGoToSleep b)
         false                      (* USART_ITConfig DISABLE, NVIC_DisableIRQ *)
         (usart2_rxne_pending b) (main_menu_notifications b) (yields b)
         (posted b ++ [MsgWokeUp]).

(** Storage the interrupt handler can name: [BaseType_t] objects by address.
    [NULL] is no address. *)
Definition pointer : Type := option nat.
Definition NULL : pointer := None.
Definition pdTRUE : Z := 1.
Definition pdFALSE : Z := 0.

(** Reading through a pointer. *)
Definition load (p : pointer) (mem : gmap nat Z) : option Z :=
  a ← p; mem !! a.

(** [xTaskNotifyFromISR( xMainMenuTaskHandle, 0, eNoAction, pxWoken )]: the
    notification is delivered; when the task it unblocks outranks the
    interrupted one, [pdTRUE] is stored through [pxWoken] unless it is [NULL]. *)
Definition xTaskNotifyFromISR (outranks : bool) (pxWoken : pointer)
    (b : board) (mem : gmap nat Z) : board * gmap nat Z :=
  (Board_ (pxLedToggleTimer b) (timers b) (timer_cmds b) (led_on b)
          (xRunTempMonitor b) (xGoToSleep b) (usart2_rxne_it b)
          (usart2_rxne_pending b) (S (main_menu_notifications b)) (yields b)
          (posted b),
   match pxWoken with
   | Some a => if outranks then <[a := pdTRUE]> mem else mem
   | None => mem
   end).

Inductive isr_result : Type :=
  | IsrReturn (b : board)
  | IsrFault (f : fault) (b : board).

(** [USART2_IRQHandler]. [outranks] tells whether the Main Menu task has a
    higher priority than the task the interrupt suspended; [mem] is the
    storage in scope. *)
Definition USART2_IRQHandler (outranks : bool) (mem : gmap nat Z) (b : board)
    : isr_result :=
  let pxIsMainMenuTaskHigherPriority : pointer := NULL in
  (* USART_ClearITPendingBit( USART2, USART_IT_RXNE ) *)
  let b1 := Board_ (pxLedToggleTimer b) (timers b) (timer_cmds b) (led_on b)
              (xRunTempMonitor b) (xGoToSleep b) (usart2_rxne_it b)
              false (main_menu_notifications b) (yields b) (posted b) in
  (* xGoToSleep = pdFALSE *)
  let b2 := Board_ (pxLedToggleTimer b1) (timers b1) (timer_cmds b1) (led_on b1)
              (xRunTempMonitor b1) false (usart2_rxne_it b1)
              (usart2_rxne_pending b1) (main_menu_notifications b1) (yields b1)
              (posted b1) in
  let '(b3, mem3) :=
    xTaskNotifyFromISR outranks pxIsMainMenuTaskHigherPriority b2 mem in
  match load pxIsMainMenuTaskHigherPriority mem3 with
  | None => IsrFault NullDereference b3
  | Some flag =>
      if flag =? pdTRUE then
        IsrReturn (Board_ (pxLedToggleTimer b3) (timers b3) (timer_cmds b3)
                     (led_on b3) (xRunTempMonitor b3) (xGoToSleep b3)
                     (usart2_rxne_it b3) (usart2_rxne_pending b3)
                     (main_menu_notifications b3) (S (yields b3)) (posted b3))
      else IsrReturn b3
  end.

(** What the Main Menu task can be asked to do with the LED and sleep mode. *)
Inductive led_op : Type :=
  | OpEnable (ulToggleDuration : Z)  (* vManageLedToggle, answer y/Y *)
  | OpDisable                        (* vManageLedToggle, answer n/N *)
  | OpSleepWake.                     (* vManageAppSleep, woken by a byte *)

(** The board after the handler's effects, whatever becomes of its end. *)
Definition after_isr (r : isr_result) : board :=
  match r with IsrReturn b | IsrFault _ b => b end.

Definition sleep_wake (b : board) : board :=
  vManageAppSleep_resume
    (after_isr (USART2_IRQHandler false ∅ (vManageAppSleep_suspend b))).

Definition run_op (b : board) (op : led_op) : board :=
  match op with
  | OpEnable d => vLedToggleEnable d b
  | OpDisable => vLedToggleDisable b
  | OpSleepWake => sleep_wake b
  end.

End Board.

(** ** The Main Menu task *)

Module MainMenu.
Import Uart.
Section Task.
Context `{Config}.

(** The head of the [while(1)] loop of [vMainMenuTaskFunction]: the menu is
    posted and a line is read; when the read succeeds without quit the first
    byte of the buffer is the selection. *)
Definition read_selection : task (option Z) :=
  _ ← xQueueSend MsgMainMenu;
  '(xReadSuccess, cUartMsg, xQuitCurrentApp) ←
      xReceiveUartMsg (memset0 50) false;
  if xReadSuccess && negb xQuitCurrentApp
  then mret (Some (cUartMsg !!! 0%nat))
  else mret None.

End Task.
End MainMenu.

(** ** The notification handoff between the Main Menu task and the
       sub-application tasks *)

Module Handoff.

(** The tasks that run one at a time under the Main Menu task. *)
Inductive app : Type := Clock | Game | Calculator.

#[global] Instance app_eq_dec : EqDecision app.
Proof. solve_decision. Defined.

(** [RUN_CLOCK] ... [SLEEP] *)
Definition RUN_CLOCK : Z := 1.
Definition RUN_GAME : Z := 2.
Definition RUN_CALCULATOR : Z := 3.
Definition MONITOR_TEMP : Z := 4.
Definition TOGGLE_LED : Z := 5.
Definition SLEEP : Z := 6.

(** The cases of [switch( ucAppSelected )] in [vMainMenuTaskFunction]. *)
Inductive choice : Type :=
  | RunApp (a : app)       (* xTaskNotify( handle of a ), then xTaskNotifyWait *)
  | ManageTempMonitor      (* vManageTempMonitor() *)
  | ManageLedToggle        (* vManageLedToggle() *)
  | ManageAppSleep         (* vManageAppSleep() *)
  | Unrecognized.          (* "Error: Unrecognized option selected" *)

(** [ucAppSelected = cUartMsg[0] - 48], a [uint8_t]. *)
Definition ucAppSelected (c : Z) : Z := Int.wrap_u8 (c - 48).

Definition choose (selected : Z) : choice :=
  if selected =? RUN_CLOCK then RunApp Clock
  else if selected =? RUN_GAME then RunApp Game
  else if selected =? RUN_CALCULATOR then RunApp Calculator
  else if selected =? MONITOR_TEMP then ManageTempMonitor
  else if selected =? TOGGLE_LED then ManageLedToggle
  else if selected =? SLEEP then ManageAppSleep
  else Unrecognized.

(** Where the Main Menu task is: in its loop, up to and including the read
    of the selection; at the [xTaskNotifyWait] that follows the notification
    of a sub-application; in [vManageAppSleep], from the arming of the RXNE
    interrupt to the return of its [xTaskNotifyWait]; or in [vManageAppSleep]
    past that wait, where it posts the wake-up message through the blocking
    [xQueueSend] with the interrupt still armed, until
    [USART_ITConfig( USART2, USART_IT_RXNE, DISABLE )]. *)
Inductive menu_pc : Type :=
  | MenuLoop
  | MenuWait (a : app)
  | MenuSleep
  | MenuAwake.

(** Where a sub-application task is: at its [xTaskNotifyWait], or in its
    [while(1)] loop. *)
Inductive app_pc : Type := AppWait | AppLoop.

(** A task's notification state is "received" ([true]) from a notify to the
    return of its next [xTaskNotifyWait]. A task at [xTaskNotifyWait] whose
    state is not "received" is blocked. [runs a] counts the run notifications
    sent to [a], [returns a] the return notifications [a] sent. *)
Record system : Type := System {
  menu : menu_pc;
  menu_notified : bool;
  pc : app -> app_pc;
  notified : app -> bool;
  runs : app -> nat;
  returns : app -> nat
}.

Definition upd {V} (f : app -> V) (a : app) (v : V) : app -> V :=
  fun b => if decide (b = a) then v else f b.

(** All tasks created, the sub-applications at their first wait. *)
Definition boot : system :=
  System MenuLoop false (fun _ => AppWait) (fun _ => false)
         (fun _ => 0%nat) (fun _ => 0%nat).

Inductive event : Type :=
  | Select (c : Z)        (* [read_selection] returns [Some c] *)
  | NoSelect              (* [read_selection] returns [None]: timeout or quit *)
  | MenuResume            (* the Main Menu task's xTaskNotifyWait returns *)
  | Wake                  (* USART2_IRQHandler notifies the Main Menu task *)
  | Disarm                (* the Main Menu task disarms the RXNE interrupt *)
  | AppStart (a : app)    (* the xTaskNotifyWait of a returns *)
  | AppRound (a : app)    (* a goes once round its loop without quit *)
  | AppQuit (a : app).    (* a notifies the Main Menu task and waits *)

(** One step of the system; [None] when the step cannot be taken. A
    notification is taken by the [xTaskNotifyWait] that returns on it, in
    whatever function the task is; the handler runs on every byte received
    while the RXNE interrupt is armed, before and after the return of the
    wait in [vManageAppSleep]; the disarming leaves the notification state
    as it is. *)
Definition step (e : event) (s : system) : option system :=
  match e with
  | Select c =>
      match menu s with
      | MenuLoop =>
          match choose (ucAppSelected c) with
          | RunApp a =>
              Some (System (MenuWait a) (menu_notified s) (pc s)
                      (upd (notified s) a true)
                      (upd (runs s) a (S (runs s a))) (returns s))
          | ManageAppSleep =>
              Some (System MenuSleep (menu_notified s) (pc s) (notified s)
                      (runs s) (returns s))
          | ManageTempMonitor | ManageLedToggle | Unrecognized => Some s
          end
      | _ => None
      end
  | NoSelect =>
      match menu s with MenuLoop => Some s | _ => None end
  | MenuResume =>
      match menu s with
      | MenuLoop | MenuAwake => None
      | MenuWait _ =>
          if menu_notified s
          then Some (System MenuLoop false (pc s) (notified s) (runs s) (returns s))
          else None
      | MenuSleep =>
          if menu_notified s
          then Some (System MenuAwake false (pc s) (notified s) (runs s) (returns s))
          else None
      end
  | Wake =>
      match menu s with
      | MenuSleep | MenuAwake =>
          Some (System (menu s) true (pc s) (notified s) (runs s) (returns s))
      | MenuLoop | MenuWait _ => None
      end
  | Disarm =>
      match menu s with
      | MenuAwake =>
          Some (System MenuLoop (menu_notified s) (pc s) (notified s) (runs s)
                  (returns s))
      | _ => None
      end
  | AppStart a =>
      match pc s a with
      | AppWait =>
          if notified s a
          then Some (System (menu s) (menu_notified s) (upd (pc s) a AppLoop)
                       (upd (notified s) a false) (runs s) (returns s))
          else None
      | AppLoop => None
      end
  | AppRound a =>
      match pc s a with AppLoop => Some s | AppWait => None end
  | AppQuit a =>
      match pc s a with
      | AppLoop =>
          Some (System (menu s) true (upd (pc s) a AppWait) (notified s)
                  (runs s) (upd (returns s) a (S (returns s a))))
      | AppWait => None
      end
  end.

Fixpoint run (es : list event) (s : system) : option system :=
  match es with
  | [] => Some s
  | e :: es' => s' ← step e s; run es' s'
  end.

(** A sub-application is active when it is not blocked at its wait. *)
Definition active (s : system) (a : app) : bool :=
  match pc s a with AppLoop => true | AppWait => notified s a end.

(** The events by which the Main Menu task itself moves. *)
Definition menu_event (e : event) : bool :=
  match e with
  | Select _ | NoSelect | MenuResume | Disarm => true
  | _ => false
  end.

End Handoff.

(** ** The switch of the Main Menu task *)

Module MenuRound.
Import Uart MainMenu Handoff.
Section Task.
Context `{Config}.

(** One turn of the [while(1)] loop of [vMainMenuTaskFunction] up to the
    call its [switch] makes: the case taken, or none when the read timed out
    or the user quit. The default case posts its notice. *)
Definition select_app : task (option choice) :=
  selection ← read_selection;
  match selection with
  | Some c =>
      match choose (ucAppSelected c) with
      | Unrecognized =>
          _ ← vPostMsgToUartQueue MsgUnrecognizedOption;
          mret (Some Unrecognized)
      | taken => mret (Some taken)
      end
  | None => mret None
  end.

End Task.
End MenuRound.

(** ** The idle hook and the timer callback *)

Module Idle.
Import Board.



(** [vLedToggle]: [GPIO_ToggleBits( GPIOA, GPIO_Pin_5 )]. *)
Definition vLedToggle (b : board) : board :=
  set_timer b (pxLedToggleTimer b) (timers b) (timer_cmds b) (negb (led_on b)).

(** The timer service when the period of the timer at [h] is over: the
    callback of a running timer is called. *)
Definition expire (h : nat) (b : board) : board :=
  match timers b !! h with
  | Some t => if running t then vLedToggle b else b
  | None => b
  end.

End Idle.

(** ** The game task *)

Module Game.
Import Uart.

(** The texts the game task posts to [xUartWriteQueue]. *)
Inductive game_msg : Type :=
  | MsgGameIntro                     (* "This is a game sub-application / Guess a number ..." *)
  | MsgTooHigh                       (* "You guessed too high" *)
  | MsgTooLow                        (* "You guessed too low" *)
  | MsgGuessAgain                    (* "Guess a number between 0 to 25: " *)
  | MsgCorrect (ulNumOfGuesses : Z). (* "You guessed the correct number! It took you %ld ..." *)

(** What the task holds after one read of a guess: [xReadSuccess], the flag
    [xQuitCurrentApp] and [lUserGuess], a [uint8_t]. *)
Record guess : Type := Guess {
  xReadSuccess : bool;
  xQuitCurrentApp : bool;
  lUserGuess : Z
}.

Section Task.
Context `{Config}.

(** "Receive user's guess": [memset], [xReceiveUartMsg], then
    [lUserGuess = lUartMsgtoInt32(cUartMsg)], which converts the [int32_t]
    to [uint8_t]. *)
Definition read_guess (xQuitCurrentApp : bool) : task guess :=
  '(xReadSuccess, cUartMsg, xQuitCurrentApp) ←
      xReceiveUartMsg (memset0 150) xQuitCurrentApp;
  lParsed ← in_bounds (lUartMsgtoInt32 cUartMsg);
  mret (Guess xReadSuccess xQuitCurrentApp (Int.wrap_u8 lParsed)).

End Task.

(** [ucSelectedNum = rand() % 26], stored in a [uint8_t]. *)
Definition select_number (rand : Z) : Z := Int.wrap_u8 (Z.rem rand 26).

(** The condition of the inner [while]: the guess is not the number, the
    read succeeded and the user did not quit. *)
Definition guess_again (ucSelectedNum : Z) (g : guess) : bool :=
  negb (lUserGuess g =? ucSelectedNum) && xReadSuccess g
  && negb (xQuitCurrentApp g).

(** The [if( lUserGuess > ucSelectedNum )] of the loop body. *)
Definition verdict (ucSelectedNum : Z) (g : guess) : game_msg :=
  if ucSelectedNum <? lUserGuess g then MsgTooHigh else MsgTooLow.

(** How a game ends: what the task posted after the first prompt and before
    the closing message, the guess it stopped on, the guess counter and the
    guesses not read. *)
Record played : Type := Played {
  posts : list game_msg;
  last_guess : guess;
  attempts : Z;
  unread : list guess
}.

(** The inner [while] loop, entered with the guess [g] in hand and the
    counter at [ulNumOfGuesses]; [next] are the guesses the following reads
    give. [None] when the loop asks for a guess that does not come. *)
Fixpoint guess_loop (ucSelectedNum : Z) (g : guess) (next : list guess)
    (ulNumOfGuesses : Z) : option played :=
  if guess_again ucSelectedNum g then
    match next with
    | [] => None
    | g' :: next' =>
        p ← guess_loop ucSelectedNum g' next' (Int.wrap_u32 (ulNumOfGuesses + 1));
        Some (Played (verdict ucSelectedNum g :: MsgGuessAgain :: posts p)
                     (last_guess p) (attempts p) (unread p))
    end
  else Some (Played [] g ulNumOfGuesses next).

(** One turn of the [while(1)] loop of [vGameTaskFunction], up to the test of
    [xQuitCurrentApp] at its end: the flag, the messages the task posted and
    the guesses left for the next turn. [rand] is what [rand()] returns. *)
Definition game_round (rand : Z) (reads : list guess)
    : option (bool * list game_msg * list guess) :=
  match reads with
  | [] => None
  | g :: next =>
      let ucSelectedNum := select_number rand in
      p ← guess_loop ucSelectedNum g next (Int.wrap_u32 (0 + 1));
      Some (xQuitCurrentApp (last_guess p),
            MsgGameIntro :: posts p
              ++ (if lUserGuess (last_guess p) =? ucSelectedNum
                  then [MsgCorrect (attempts p)] else []),
            unread p)
  end.

End Game.

(** ** The menu of the temperature monitor and the flags it shares with
       the monitor task *)

Module TempControl.
Import Uart TempMonitor.

(** The texts [vManageTempMonitor] posts to [xUartWriteQueue]. *)
Inductive monitor_msg : Type :=
  | MsgMonitorMenu          (* "This is a temperature monitoring sub-application ..." *)
  | MsgMonitorStarted       (* "Temperature monitor started" *)
  | MsgNoStatistics         (* "Temperature monitor has not been started yet ..." *)
  | MsgMonitorStopped       (* "Temperature monitor stopped" *)
  | MsgUnrecognizedChoice.  (* "Error: Unrecognized option selected" *)

(** The globals [xRunTempMonitor] and [xShowTemps], and whether a
    notification sent to the monitor task has not been taken by its
    [xTaskNotifyWait] yet. *)
Record flags : Type := Flags {
  xRunTempMonitor : bool;
  xShowTemps : bool;
  monitor_notified : bool
}.

Section Task.
Context `{Config}.

(** [vTaskDelay( xTicksToDelay )] *)
Definition vTaskDelay (xTicksToDelay : Z) : task unit := fun w =>
  Done tt (World (Int.wrap_u32 (tick w + xTicksToDelay)) (rx w) (uart_queue w)
                 (rtc_ready w) (rtc_writes w)).

(** The [switch( ucOptionSelected )] of [vManageTempMonitor]: the flags it
    leaves and what it posts. *)
Definition manage (ucOptionSelected : Z) (f : flags)
    : task (flags * list monitor_msg) :=
  if ucOptionSelected =? 1 then
    (* xTaskNotify( xTempMonitorTaskHandle, 0, eNoAction ) *)
    _ ← vTaskDelay (pdMS_TO_TICKS 500);
    mret (Flags (xRunTempMonitor f) (xShowTemps f) true, [MsgMonitorStarted])
  else if ucOptionSelected =? 2 then
    if negb (xRunTempMonitor f) then mret (f, [MsgNoStatistics])
    else
      _ ← vTaskDelay (pdMS_TO_TICKS 500);
      mret (Flags (xRunTempMonitor f) true (monitor_notified f), [])
  else if ucOptionSelected =? 3 then
    mret (Flags false (xShowTemps f) (monitor_notified f), [MsgMonitorStopped])
  else mret (f, [MsgUnrecognizedChoice]).

(** [vManageTempMonitor] *)
Definition vManageTempMonitor (f : flags) : task (flags * list monitor_msg) :=
  '(xReadSuccess, cUartMsg, xQuitCurrentApp) ←
      xReceiveUartMsg (memset0 150) false;
  if xReadSuccess && negb xQuitCurrentApp then
    '(f', posted) ← manage (Int.wrap_u8 (cUartMsg !!! 0%nat - 48)) f;
    mret (f', MsgMonitorMenu :: posted)
  else mret (f, [MsgMonitorMenu]).

End Task.

(** One turn of the loop of the monitor task on the shared flags: after it
    [xRunTempMonitor] is set and [xShowTemps] is down, and a notification is
    taken when the turn went through [xTaskNotifyWait]. [None] when the task
    stays blocked there. *)
Definition monitor_turn (f : flags) (r : reading) (s : temp_record)
    : option (flags * temp_record * list temp_report) :=
  '(s', reports) ←
      monitor_cycle
        (CycleEnv (xRunTempMonitor f) (monitor_notified f) (xShowTemps f)) r s;
  Some (Flags true false
              (if xRunTempMonitor f then monitor_notified f else false),
        s', reports).

(** Turns of the monitor task, one for each reading. *)
Fixpoint monitor_turns (f : flags) (s : temp_record) (readings : list reading)
    : option (flags * temp_record) :=
  match readings with
  | [] => Some (f, s)
  | r :: rest =>
      '(f', s', _) ← monitor_turn f r s;
      monitor_turns f' s' rest
  end.

End TempControl.

(** ** The clock task: setting the alarm *)

Module Alarm.
Import Uart Clock.





Section Task.
Context `{Config}.


End Task.
End Alarm.

(** ** The reader on the memory around its buffer *)

Module Flat.
Import Uart.




Section Reader.
Context `{Config}.



End Reader.
End Flat.
(** * Part II: the notions used to state the properties *)

(** The board at hand: a 1 kHz tick. *)
Definition nucleo : Config := {| configTICK_RATE_HZ := 1000 |}.

(** A world at tick 0 with the given console input, nothing posted, the RTC
    ready. *)
Definition console (input : list (Z * Z)) : world := World 0 input [] true [].

(** ** Lines, deadlines and digit strings *)

Module UartSpec.
Import Uart.

(** A line as the user types it, every byte [wait] ticks after the one
    before, closed by the return key. *)
Definition typed (wait : Z) (line : list Z) : list (Z * Z) :=
  map (fun c => (wait, c)) (line ++ [Chr.CR]).

(** The data bytes of some console input and the ticks it takes to arrive. *)
Definition data_bytes (input : list (Z * Z)) : list Z :=
  map (fun p => Z.land p.2 255) input.

Definition arrival_time (input : list (Z * Z)) : Z :=
  foldr (fun p acc => p.1 + acc) 0 input.

Section Timely.
Context `{Config}.

(** The world after a line has been read. *)
Definition after_line (w : world) (line : list (Z * Z)) (wait_cr : Z)
    (rest : list (Z * Z)) : world :=
  World (tick w + arrival_time line + wait_cr) rest
        (uart_queue w) (rtc_ready w) (rtc_writes w).

(** When a line arrives in time. *)
Record timely (w : world) (line : list (Z * Z)) (wait_cr data_cr : Z)
    (rest : list (Z * Z)) (size : nat) : Prop := Timely {
  timely_rx : rx w = line ++ (wait_cr, data_cr) :: rest;
  timely_line : Forall (fun p => 0 <= p.1 /\ Z.land p.2 255 <> Chr.CR) line;
  timely_wait : 0 <= wait_cr;
  timely_cr : Z.land data_cr 255 = Chr.CR;
  timely_tick : 0 <= tick w /\ tick w + pdMS_TO_TICKS 30000 < 2 ^ 32;
  timely_arrival : arrival_time line + wait_cr < pdMS_TO_TICKS 30000;
  timely_fits : (length line <= size)%nat
}.

End Timely.

(** The flag after the line [line], typed at once at tick 0 into a cleared
    50-byte buffer with the flag down. *)
Definition quit_after (line : list Z) : option bool :=
  match @xReceiveUartMsg nucleo (memset0 50) false (console (typed 0 line)) with
  | Done (_, _, quit) _ => Some quit
  | _ => None
  end.

(** C3 as the specification words it: the flag is raised by the lines q and
    Q and by no other line. *)
Definition quit_only_for_q_line : Prop :=
  forall line, Chr.CR ∉ line -> (length line <= 50)%nat ->
    (quit_after line = Some true
     <-> (line = [Chr.lower_q] \/ line = [Chr.upper_Q])).

(** *** Parsing a number and printing it back *)

Definition digit_string (ds : list Z) : Prop :=
  Forall (fun c => Chr.is_digit c = true) ds.

(** The number a digit string denotes. *)
Definition value_from (n : Z) (ds : list Z) : Z :=
  foldl (fun n c => n * 10 + (c - 48)) n ds.

(** Parsing the string in a buffer, then printing the number with [%ld]. *)
Definition parse_then_print (buffer : list Z) : option (list Z) :=
  sprintf_ld <$> lUartMsgtoInt32 buffer.

(** C8 as the specification words it. *)
Definition every_digit_string_round_trips : Prop :=
  forall ds, (1 <= length ds <= 9)%nat -> digit_string ds ->
    parse_then_print (ds ++ [Chr.NUL]) = Some ds.

End UartSpec.

(** ** Calculator inputs and notices *)

Module CalculatorSpec.
Import Uart UartSpec Calculator.

(** The user types 7, 0 and /, each closed by the return key. *)
Definition seven_zero_slash : world :=
  console (typed 5 [55] ++ typed 5 [48] ++ typed 5 [47]).

(** The messages that report an error to the user. *)
Definition is_notice (m : uart_msg) : bool :=
  match m with
  | MsgUnrecognizedOption | MsgUserInputTimeout | MsgUnrecognizedOperator
  | MsgRtcSetDateError => true
  | _ => false
  end.

(** What a task adds to the queue of the world it starts in. *)
Definition posted_by {A} (t : task A) (w : world) : list uart_msg :=
  drop (length (uart_queue w)) (uart_queue (final_world (t w))).

(** C6 as the specification words it, for the first integer: when it is
    read without timeout or quit and is no number, the round posts a
    notice. *)
Definition invalid_number_is_reported : Prop :=
  forall w m1 w1,
    @xReceiveUartMsg nucleo (memset0 50) false (post MsgCalcFirstInteger w)
      = Done (true, m1, false) w1 ->
    lUartMsgtoInt32 m1 = Some Int.INVALID_NUM ->
    exists m, m ∈ posted_by (@calculator_round nucleo false) w
              /\ is_notice m = true.

End CalculatorSpec.

(** ** Clock inputs *)

Module ClockSpec.
Import Uart UartSpec Clock.

(** A task that only ever adds to the queue. *)
Definition grows {A} (t : task A) : Prop :=
  forall w, exists suffix,
    uart_queue (final_world (t w)) = uart_queue w ++ suffix.

(** The user answers 24 to the hour prompt, then enters the date 1-1-21, a
    Monday. *)
Definition hour_24_then_a_date : world :=
  console (typed 5 [50; 52] ++ typed 5 [49] ++ typed 5 [49]
           ++ typed 5 [50; 49] ++ typed 5 [49]).

(** The return key comes when the 30 seconds of the hour prompt are over;
    the same date follows. *)
Definition late_hour_then_a_date : world :=
  console ((30000, Chr.CR) :: typed 5 [49] ++ typed 5 [49]
           ++ typed 5 [50; 49] ++ typed 5 [49]).

End ClockSpec.

(** ** Temperatures *)

Module TempMonitorSpec.
Import TempMonitor.

(** Order on temperatures: equal, or strictly below. *)
Definition temp_le (a b : temperature) : Prop := a = b \/ SFltb a b = true.

(** A reading of [m * 2^e] degrees on 3 December 2020 at 17:00:00. *)
Definition deg (m : positive) (e : Z) : reading :=
  Reading (RtcTime 17 0 0) (RtcDate 4 12 3 20) (S754_finite false m e).

(** The start notification, then two more turns with the run flag set:
    readings of 25.0, 30.0 and 20.0 degrees. *)
Definition three_cycles : list (cycle_env * reading) :=
  [ (CycleEnv false true false, deg 13107200 (-19));
    (CycleEnv true false false, deg 15728640 (-19));
    (CycleEnv true false false, deg 10485760 (-19)) ].

(** The records after the first and the second of these turns. *)
Definition after_25 : temp_record := track (deg 13107200 (-19)) reset_stats.
Definition after_30 : temp_record := track (deg 15728640 (-19)) after_25.

End TempMonitorSpec.

(** ** Stale handles *)

Module BoardSpec.
Import Board.

(** Once set, the handle stays what it is while the timer it named is gone. *)
Definition stale (h : nat) (b : board) : Prop :=
  pxLedToggleTimer b = Some h /\ timers b !! h = None.

(** A board whose LED was set toggling once. *)
Definition toggling : board :=
  vLedToggleEnable 500 (Board_ None ∅ [] false false false false false 0 0 []).

(** That board after a sleep, a request to stop toggling and another sleep. *)
Definition slept_twice : board :=
  foldl run_op (sleep_wake toggling) [OpDisable; OpSleepWake].

End BoardSpec.

(** ** The handoff with and without sleep *)

Module HandoffSpec.
Import Handoff.

(** The digit that selects a sub-application. *)
Definition digit (a : app) : Z :=
  match a with Clock => 49 | Game => 50 | Calculator => 51 end.

(** An event other than the selection of the sleep option. *)
Definition stays_awake (e : event) : Prop :=
  match e with
  | Select c => choose (ucAppSelected c) <> ManageAppSleep
  | _ => True
  end.

(** A run in which the application is never put to sleep. *)
Definition never_sleeps (es : list event) : Prop := Forall stays_awake es.

(** What holds in every state of a run that never sleeps. *)
Record inv (s : system) : Prop := Inv {
  inv_awake : menu s <> MenuSleep /\ menu s <> MenuAwake;
  inv_loop : forall a, pc s a = AppLoop -> notified s a = false;
  inv_menu : forall a, active s a = true -> menu s = MenuWait a;
  inv_blocked : forall a, active s a = true -> menu_notified s = false;
  inv_menu_loop : menu s = MenuLoop -> menu_notified s = false;
  inv_returned : forall a,
    menu s = MenuWait a -> active s a = false -> menu_notified s = true;
  inv_count : forall a,
    runs s a = (returns s a + if active s a then 1 else 0)%nat
}.

(** The sleep option, then two bytes on the console: the first wakes the
    Main Menu task; the second arrives after the return of the wait in
    [vManageAppSleep] and before the RXNE interrupt is disarmed. *)
Definition woken_twice : list event :=
  [Select 54; Wake; MenuResume; Wake; Disarm].

(** What holds in every state of every run: a Main Menu task that waits for
    a sub-application without a notification to take waits for one that is
    active. *)
Definition waits_for_active (s : system) : Prop :=
  forall a, menu s = MenuWait a -> menu_notified s = false -> active s a = true.

End HandoffSpec.

(** ** Answers typed in time *)

Module EntrySpec.
Import Uart UartSpec.

(** A string of 1 to 9 decimal digits. *)
Definition number (ds : list Z) : Prop :=
  (1 <= length ds <= 9)%nat /\ digit_string ds.

Section Entry.
Context `{Config}.

(** The user answers a prompt in time: in the world [w] the bytes [bs], none
    of them a return, then the return key, all before the deadline and
    fitting a buffer of [size] bytes; [w'] is the world once they are read. *)
Definition answers (size : nat) (w : world) (bs : list Z) (w' : world) : Prop :=
  exists line wait_cr data_cr rest,
    timely w line wait_cr data_cr rest size
    /\ bs = data_bytes line
    /\ w' = after_line w line wait_cr rest.

(** The user answers the prompt [prompt] with a number, in time, into a
    cleared buffer of 50 bytes. *)
Definition enters (prompt : uart_msg) (w : world) (ds : list Z) (w' : world)
    : Prop :=
  number ds /\ answers 50 (post prompt w) ds w'.

End Entry.

(** The world with one more write applied to the clock service. *)
Definition wrote (x : rtc_write) (w : world) : world :=
  World (tick w) (rx w) (uart_queue w) (rtc_ready w) (rtc_writes w ++ [x]).


(** The user enters the time 17:00:00 and the date 3-12-20, a Thursday. *)
Definition enters_17_00_00_and_3_12_20 : world :=
  console (typed 5 [49; 55] ++ typed 5 [48] ++ typed 5 [48]
           ++ typed 5 [51] ++ typed 5 [49; 50] ++ typed 5 [50; 48]
           ++ typed 5 [52]).

End EntrySpec.

(** ** What a calculator round posts when it computes nothing *)

Module QuitSpec.

Definition prompt_or_timeout (m : uart_msg) : Prop :=
  m ∈ [MsgCalcFirstInteger; MsgCalcSecondInteger; MsgCalcOperator;
       MsgUserInputTimeout].

End QuitSpec.

(** ** What may be written to the clock service *)

Module RtcSpec.

Definition valid_time (t : RTC_TimeTypeDef) : Prop :=
  0 <= RTC_Hours t <= 23 /\ 0 <= RTC_Minutes t <= 59 /\ 0 <= RTC_Seconds t <= 59.

Definition valid_date (d : RTC_DateTypeDef) : Prop :=
  1 <= RTC_Date d <= 31 /\ 1 <= RTC_Month d <= 12 /\ 0 <= RTC_Year d <= 99
  /\ 1 <= RTC_WeekDay d <= 7.

(** The writes a task adds to those of the world it starts in, whether it
    returns or not, satisfy [P]. *)
Definition writes {A} (P : list rtc_write -> Prop) (t : task A) : Prop :=
  forall w, exists added,
    rtc_writes (final_world (t w)) = rtc_writes w ++ added /\ P added.

(** No write, or one write of a valid time. *)
Definition time_at_most (added : list rtc_write) : Prop :=
  added = [] \/ exists t, added = [WroteTime t] /\ valid_time t.

(** No write, or one write of a valid date. *)
Definition date_at_most (added : list rtc_write) : Prop :=
  added = [] \/ exists d, added = [WroteDate d] /\ valid_date d.

(** At most a valid time, then at most a valid date. *)
Definition time_then_date (added : list rtc_write) : Prop :=
  exists ts ds, added = ts ++ ds /\ time_at_most ts /\ date_at_most ds.

(** A run that did not end at an access past the end of a buffer: it
    returned, or it waits for ever for a byte. *)
Definition within_buffers {A} (r : result A) : Prop :=
  match r with
  | Done _ _ | Blocked _ => True
  | Trap _ _ => False
  end.

End RtcSpec.

(** ** What [vSetAlarm] may leave behind *)

Module AlarmSpec.
Import Alarm RtcSpec.


End AlarmSpec.

(** ** Sessions of the temperature monitor *)

Module SessionSpec.
Import TempMonitor.

(** Every reading is above the one before, the first above [top]. *)
Fixpoint ascending (top : temperature) (rs : list reading) : Prop :=
  match rs with
  | [] => True
  | r :: rs' =>
      SFltb top (fCurrentTemp r) = true /\ ascending (fCurrentTemp r) rs'
  end.

(** The lowest temperature is still the one the reset put there. *)
Definition lowest_untouched (s : temp_record) : Prop :=
  fLowestTemp s = temp_100 /\ xDateForLTemp s = zero_date
  /\ xTimeForLTemp s = zero_time.

(** A [float] that is not a number. *)
Definition not_a_number (t : temperature) : bool :=
  match t with S754_nan => true | _ => false end.

(** Neither extreme of the record is not-a-number. *)
Definition extremes_are_numbers (s : temp_record) : Prop :=
  not_a_number (fHighestTemp s) = false /\ not_a_number (fLowestTemp s) = false.

(** Readings of 25.0, 30.0 and 35.0 degrees: the start notification, then
    two turns with the run flag set. *)
Definition warming : list (cycle_env * reading) :=
  [ (CycleEnv false true false, TempMonitorSpec.deg 13107200 (-19));
    (CycleEnv true false false, TempMonitorSpec.deg 15728640 (-19));
    (CycleEnv true false true, TempMonitorSpec.deg 9175040 (-18)) ].

End SessionSpec.

(** ** The LED timer before any sleep *)

Module LedSpec.
Import Board.

(** The board when the scheduler starts: no timer, the LED off. *)
Definition power_on : board :=
  Board_ None ∅ [] false false false false false 0 0 [].

(** Since the board [b0], either nothing was done to the LED timer, or one
    timer was created, at an address free in [b0], and the handle names it. *)
Definition one_timer (b0 b : board) : Prop :=
  (pxLedToggleTimer b = None /\ b = b0)
  \/ exists h t,
       pxLedToggleTimer b = Some h /\ timers b0 !! h = None
       /\ timers b = <[h := t]> (timers b0).

End LedSpec.

(** ** Rounds of the game *)

Module GameSpec.
Import Game.

(** What the task posts for a wrong guess. *)
Definition reply (ucSelectedNum : Z) (g : guess) : list game_msg :=
  [verdict ucSelectedNum g; MsgGuessAgain].

(** The number is 7 ([rand()] gave 33); the user guesses 20, then 3, then 7. *)
Definition three_guesses : list guess :=
  [Guess true false 20; Guess true false 3; Guess true false 7].

End GameSpec.

(** * Part III: the properties *)

(** ** Machine integers *)

Module IntFacts.
Import Int.

Lemma INVALID_NUM_value : INVALID_NUM = -1.
Proof. reflexivity. Qed.

Lemma wrap_s32_id x : INT32_MIN <= x <= INT32_MAX -> wrap_s32 x = x.
Proof.
  unfold wrap_s32, INT32_MIN, INT32_MAX. intros Hx.
  rewrite Z.mod_small; lia.
Qed.

Lemma wrap_u32_id x : 0 <= x < 2 ^ 32 -> wrap_u32 x = x.
Proof. unfold wrap_u32. intros Hx. apply Z.mod_small. lia. Qed.

Lemma wrap_u32_range x : 0 <= wrap_u32 x < 2 ^ 32.
Proof. unfold wrap_u32. apply Z.mod_pos_bound. lia. Qed.

Lemma pdMS_TO_TICKS_range `{Config} ms : 0 <= pdMS_TO_TICKS ms < 2 ^ 32.
Proof. apply wrap_u32_range. Qed.

End IntFacts.

(** ** The timed line reader *)

Module UartFacts.
Import Uart UartSpec IntFacts.

Section Facts.
Context `{Config}.

(** The loop posts nothing and leaves the clock service alone. *)
Lemma receive_loop_frame pending : forall deadline now prev i buf q w,
  let w' := final_world (receive_loop deadline pending now prev i buf q w) in
  uart_queue w' = uart_queue w /\ rtc_ready w' = rtc_ready w
  /\ rtc_writes w' = rtc_writes w.
Proof.
  induction pending as [|[wait data] rest IH]; intros deadline now prev i buf q w;
    simpl; destruct (now <? deadline); simpl; auto.
  destruct (Z.land data 255 =? Chr.CR); simpl; auto.
  destruct (i <? length buf)%nat; simpl; auto.
Qed.

(** A line whose bytes and return key all arrive before the deadline, and
    which fits the buffer, is read to its end. *)
Lemma receive_loop_line line : forall deadline now prev i buf q w wait_cr data_cr rest,
  Forall (fun p => 0 <= p.1 /\ Z.land p.2 255 <> Chr.CR) line ->
  0 <= wait_cr -> Z.land data_cr 255 = Chr.CR ->
  0 <= now -> now + arrival_time line + wait_cr < deadline -> deadline <= 2 ^ 32 ->
  (i + length line <= length buf)%nat ->
  receive_loop deadline (line ++ (wait_cr, data_cr) :: rest) now prev i buf q w
  = Done (take i buf ++ data_bytes line ++ drop (i + length line) buf,
          q || Chr.is_quit_letter (default prev (last (data_bytes line))))
         (World (now + arrival_time line + wait_cr) rest
                (uart_queue w) (rtc_ready w) (rtc_writes w)).
Proof.
  induction line as [|[wait data] line IH];
    intros deadline now prev i buf q w wait_cr data_cr rest
      Hline Hw Hcr Hnow Hlt Hd Hlen.
  - simpl in *. replace (now <? deadline) with true by (symmetry; apply Z.ltb_lt; lia).
    rewrite Hcr. simpl. rewrite Nat.add_0_r, take_drop.
    rewrite wrap_u32_id by lia. do 3 f_equal. lia.
  - inversion Hline as [|? ? [Hwait Hdata] Hline']; subst. simpl in *.
    pose proof (Forall_impl _ _ _ Hline' (fun p Hp => proj1 Hp)) as Hpos.
    assert (0 <= arrival_time line) as Hsum.
    { clear -Hpos. induction Hpos; simpl; lia. }
    replace (now <? deadline) with true by (symmetry; apply Z.ltb_lt; lia).
    apply Z.eqb_neq in Hdata. rewrite Hdata. simpl.
    replace (i <? length buf)%nat with true by (symmetry; apply Nat.ltb_lt; lia).
    rewrite wrap_u32_id by lia.
    rewrite IH; try done; try lia.
    2: { rewrite length_insert. lia. }
    f_equal.
    + f_equal.
      * rewrite (take_S_r _ _ (Z.land data 255)).
        2: { apply list_lookup_insert_eq. lia. }
        rewrite take_insert_ge by lia. rewrite <- app_assoc. simpl.
        rewrite drop_insert_lt by lia.
        by rewrite Nat.add_succ_r.
      * f_equal. f_equal. rewrite last_cons.
        by destruct (last (data_bytes line)).
    + f_equal. lia.
Qed.

Lemma xReceiveUartMsg_line buf q w line wait_cr data_cr rest :
  timely w line wait_cr data_cr rest (length buf) ->
  xReceiveUartMsg buf q w
  = Done (true, data_bytes line ++ drop (length line) buf,
          q || Chr.is_quit_letter (default 0 (last (data_bytes line))))
         (after_line w line wait_cr rest).
Proof.
  intros [Hrx Hline Hw Hcr [Ht0 Ht1] Harr Hfit].
  pose proof (pdMS_TO_TICKS_range 30000) as Hd.
  unfold xReceiveUartMsg, mbind, task_bind, xTaskGetTickCount, receive.
  rewrite Hrx, (wrap_u32_id (tick w + _)) by lia.
  rewrite (receive_loop_line line); try done; try lia.
  simpl. replace (_ <? _) with true by (symmetry; apply Z.ltb_lt; lia).
  reflexivity.
Qed.

(** What the reader posts: one timeout notice when it returns [pdFALSE],
    nothing otherwise. *)
Lemma xReceiveUartMsg_posts buf q w :
  match xReceiveUartMsg buf q w with
  | Done (true, _, _) w' => uart_queue w' = uart_queue w
  | Done (false, _, _) w' => uart_queue w' = uart_queue w ++ [MsgUserInputTimeout]
  | Blocked w' | Trap _ w' => uart_queue w' = uart_queue w
  end.
Proof.
  unfold xReceiveUartMsg, mbind, task_bind, xTaskGetTickCount, receive.
  pose proof (receive_loop_frame (rx w)
    (Int.wrap_u32 (tick w + pdMS_TO_TICKS 30000)) (tick w) 0 0%nat buf q w) as Hf.
  simpl in Hf. destruct Hf as [Hq _].
  destruct (receive_loop _ _ _ _ _ _ _ _) as [[b q'] w'| |]; simpl in *; try done.
  destruct (_ <? _); simpl; by rewrite ?Hq.
Qed.

(** With no byte to come the reader never leaves its RXNE poll. *)
Lemma receive_nothing buf q w :
  rx w = [] -> 0 <= tick w -> 0 < pdMS_TO_TICKS 30000 ->
  tick w + pdMS_TO_TICKS 30000 < 2 ^ 32 ->
  xReceiveUartMsg buf q w = Blocked w.
Proof.
  intros Hrx Ht Hd Hw.
  unfold xReceiveUartMsg, mbind, task_bind, xTaskGetTickCount, receive.
  rewrite Hrx, wrap_u32_id by lia. simpl.
  replace (_ <? _) with true by (symmetry; apply Z.ltb_lt; lia).
  destruct w; simpl in *; by subst.
Qed.

(** When the first byte comes after the deadline the reader takes it, gives
    up, posts the notice and returns [pdFALSE]. *)
Lemma receive_late buf q w wait data rest :
  rx w = (wait, data) :: rest -> 0 <= tick w -> 0 < pdMS_TO_TICKS 30000 ->
  pdMS_TO_TICKS 30000 <= wait -> tick w + wait < 2 ^ 32 ->
  (0 < length buf)%nat ->
  exists buf' q',
    xReceiveUartMsg buf q w
    = Done (false, buf', q')
        (World (tick w + wait) rest (uart_queue w ++ [MsgUserInputTimeout])
               (rtc_ready w) (rtc_writes w)).
Proof.
  intros Hrx Ht Hd Hlate Hw Hbuf.
  unfold xReceiveUartMsg, mbind, task_bind, xTaskGetTickCount, receive.
  rewrite Hrx, (wrap_u32_id (tick w + _)) by lia. simpl.
  replace (tick w <? _) with true by (symmetry; apply Z.ltb_lt; lia).
  rewrite (wrap_u32_id (tick w + wait)) by lia.
  destruct (Z.land data 255 =? Chr.CR); simpl.
  - replace (_ <? _) with false by (symmetry; apply Z.ltb_ge; lia).
    simpl. eauto.
  - replace (0 <? length buf)%nat with true by (symmetry; apply Nat.ltb_lt; lia).
    destruct rest as [|[wait' data'] rest']; simpl;
      replace (tick w + wait <? _) with false by (symmetry; apply Z.ltb_ge; lia);
      simpl; replace (tick w + wait <? _) with false by (symmetry; apply Z.ltb_ge; lia);
      simpl; eauto.
Qed.

(** C2 (what the code does where the claim fails): when no byte ever
    arrives, a call of the timed line reader does not return [pdFALSE] after
    30 seconds: it stays in its poll of the RXNE flag, returns nothing and
    posts no timeout notice. *)
Theorem reader_without_input_never_returns buf q w :
  rx w = [] -> 0 <= tick w -> 0 < pdMS_TO_TICKS 30000 ->
  tick w + pdMS_TO_TICKS 30000 < 2 ^ 32 ->
  xReceiveUartMsg buf q w = Blocked w
  /\ returned (xReceiveUartMsg buf q w) = false
  /\ uart_queue (final_world (xReceiveUartMsg buf q w)) = uart_queue w.
Proof.
  intros Hrx Ht Hd Hw. by rewrite receive_nothing.
Qed.

(** C3 (amended): a line read before the deadline sets the quit flag exactly
    when the byte just before the return key is q or Q, whatever comes
    before that byte; otherwise the flag stays as the caller passed it. *)
Theorem quit_flag_follows_last_byte buf q w line wait_cr data_cr rest :
  timely w line wait_cr data_cr rest (length buf) ->
  exists buf' w',
    xReceiveUartMsg buf q w
    = Done (true, buf',
            q || Chr.is_quit_letter (default 0 (last (data_bytes line)))) w'.
Proof.
  intros Ht. rewrite (xReceiveUartMsg_line _ _ _ _ _ _ _ Ht). eauto.
Qed.

End Facts.

Lemma reader_without_input_never_returns_witness :
  @xReceiveUartMsg nucleo (memset0 50) false (console []) = Blocked (console [])
  /\ returned (@xReceiveUartMsg nucleo (memset0 50) false (console [])) = false
  /\ uart_queue (final_world (@xReceiveUartMsg nucleo (memset0 50) false (console [])))
     = uart_queue (console []).
Proof.
  apply (@reader_without_input_never_returns nucleo (memset0 50) false (console []));
    [reflexivity | simpl; lia | vm_compute; reflexivity | vm_compute; reflexivity].
Defined.

(** C3 (counterexample): the line aq, which is neither q nor Q, raises the
    flag. *)
Lemma quit_raised_by_longer_line : ~ quit_only_for_q_line.
Proof.
  intros Hclaim.
  destruct (Hclaim [97; Chr.lower_q]) as [Hraised _].
  - intros Hin. by repeat (apply elem_of_cons in Hin as [?|Hin]; [done|]);
      apply elem_of_nil in Hin.
  - simpl. lia.
  - destruct Hraised as [Hq|Hq]; [by vm_compute | discriminate Hq..].
Qed.

Lemma quit_flag_follows_last_byte_witness :
  exists buf' w',
    @xReceiveUartMsg nucleo (memset0 50) false (console (typed 5 [97; 113]))
    = Done (true, buf', true) w'.
Proof.
  apply (@quit_flag_follows_last_byte nucleo (memset0 50) false
           (console (typed 5 [97; 113])) [(5, 97); (5, 113)] 5 13 []).
  split; simpl.
  - reflexivity.
  - repeat constructor; simpl; try lia; vm_compute; discriminate.
  - lia.
  - reflexivity.
  - vm_compute. split; [discriminate | reflexivity].
  - vm_compute. reflexivity.
  - lia.
Defined.

(** *** Parsing a number and printing it back *)

(** C8 (counterexample): 007 comes back as 7. *)
Lemma leading_zeros_are_lost : ~ every_digit_string_round_trips.
Proof.
  intros Hclaim. specialize (Hclaim [48; 48; 55]).
  assert (parse_then_print ([48; 48; 55] ++ [Chr.NUL]) = Some [55]) as Hrun
    by reflexivity.
  rewrite Hclaim in Hrun; [discriminate Hrun | simpl; lia |].
  repeat constructor.
Qed.

Lemma is_digit_range c : Chr.is_digit c = true <-> 48 <= c <= 57.
Proof. unfold Chr.is_digit, Chr.zero, Chr.nine. lia. Qed.

Lemma value_from_ge n ds : 0 <= n -> digit_string ds -> n <= value_from n ds.
Proof.
  revert n. induction ds as [|c ds IH]; intros n Hn Hds; simpl; [lia|].
  inversion Hds as [|? ? Hc Hds']; subst. apply is_digit_range in Hc.
  etrans; [|apply IH]; [lia | lia | done].
Qed.

Lemma value_from_snoc n ds c :
  value_from n (ds ++ [c]) = value_from n ds * 10 + (c - 48).
Proof. unfold value_from. by rewrite foldl_app. Qed.

(** The loop of the parser on digits followed by a byte that is no digit:
    below ten digits nothing wraps. *)
Lemma digits_loop_value ds : forall k n i c rest,
  0 <= n < 10 ^ k -> 0 <= k -> k + Z.of_nat (length ds) <= 9 ->
  digit_string ds -> Chr.is_digit c = false ->
  digits_loop (ds ++ c :: rest) i n = Some ((i + length ds)%nat, value_from n ds).
Proof.
  induction ds as [|d ds IH]; intros k n i c rest Hn Hk Hlen Hds Hc; simpl.
  - rewrite Hc. by rewrite Nat.add_0_r.
  - inversion Hds as [|? ? Hd Hds']; subst. rewrite Hd.
    apply is_digit_range in Hd.
    assert (10 ^ (k + 1) <= 10 ^ 9) by (apply Z.pow_le_mono_r; simpl in *; lia).
    assert (10 ^ (k + 1) = 10 ^ k * 10) as Hpow by (rewrite Z.pow_add_r; lia).
    rewrite wrap_s32_id by (unfold Int.INT32_MIN, Int.INT32_MAX; lia).
    rewrite (IH (k + 1)); try done; try lia.
    + by rewrite Nat.add_succ_r.
    + simpl in Hlen. lia.
Qed.

Lemma lUartMsgtoInt32_digits ds c rest :
  (1 <= length ds <= 9)%nat -> digit_string ds -> Chr.is_digit c = false ->
  lUartMsgtoInt32 (ds ++ c :: rest) = Some (value_from 0 ds).
Proof.
  intros Hlen Hds Hc. unfold lUartMsgtoInt32.
  rewrite (digits_loop_value ds 0); try done; try lia.
  simpl. by replace (0 <? length ds)%nat with true
    by (symmetry; apply Nat.ltb_lt; lia).
Qed.

(** Printing the value of a digit string that starts with no zero. *)
Lemma decimal_digits_value ds : forall fuel acc,
  ds <> [] -> digit_string ds -> (hd 0 ds <> 48 \/ ds = [48]) ->
  (length ds <= fuel)%nat ->
  decimal_digits fuel (value_from 0 ds) acc = ds ++ acc.
Proof.
  induction ds as [|d ds IH] using rev_ind; intros fuel acc Hne Hds Hlead Hfuel;
    [done|].
  rewrite length_app in Hfuel. simpl in Hfuel.
  destruct fuel as [|fuel]; [lia|].
  apply Forall_app in Hds as [Hds Hd]. inversion Hd as [|? ? Hd' _]; subst.
  apply is_digit_range in Hd'.
  pose proof (value_from_ge 0 ds (Z.le_refl 0) Hds) as Hge.
  rewrite value_from_snoc. simpl.
  replace ((value_from 0 ds * 10 + (d - 48)) `mod` 10) with (d - 48).
  2: { rewrite Z.add_comm, Z.mod_add by lia. symmetry. apply Z.mod_small. lia. }
  replace (Chr.zero + (d - 48)) with d by (unfold Chr.zero; lia).
  destruct ds as [|d0 ds'].
  - simpl. replace (_ <? _) with true by (symmetry; apply Z.ltb_lt; lia). done.
  - assert (d0 <> 48) as Hd0.
    { destruct Hlead as [Hh|Heq]; [done|]. by destruct ds'. }
    assert (1 <= value_from 0 (d0 :: ds')) as Hpos.
    { inversion Hds as [|? ? Hc0 Hds0]; subst. apply is_digit_range in Hc0.
      simpl. etrans; [|apply value_from_ge]; [lia | lia | done]. }
    replace (_ <? 10) with false by (symmetry; apply Z.ltb_ge; lia).
    replace ((value_from 0 (d0 :: ds') * 10 + (d - 48)) `div` 10)
      with (value_from 0 (d0 :: ds')).
    2: { rewrite Z.add_comm, Z.div_add by lia. rewrite Z.div_small; lia. }
    rewrite IH; try done.
    + by rewrite <- app_assoc.
    + by left.
    + lia.
Qed.

(** C8 (amended): a string of 1 to 9 decimal digits with no leading zero, or
    the string 0, is parsed and printed back to exactly itself. *)
Theorem digit_string_round_trip ds c rest :
  (1 <= length ds <= 9)%nat -> digit_string ds ->
  (hd 0 ds <> Chr.zero \/ ds = [Chr.zero]) -> Chr.is_digit c = false ->
  parse_then_print (ds ++ c :: rest) = Some ds.
Proof.
  intros Hlen Hds Hlead Hc. unfold parse_then_print.
  rewrite lUartMsgtoInt32_digits by done. simpl. f_equal.
  pose proof (value_from_ge 0 ds (Z.le_refl 0) Hds) as Hge.
  unfold sprintf_ld. replace (_ <? 0) with false by (symmetry; apply Z.ltb_ge; lia).
  rewrite decimal_digits_value; try done.
  - apply app_nil_r.
  - intros ->. simpl in Hlen. lia.
  - lia.
Qed.

Lemma digit_string_round_trip_witness :
  parse_then_print ([52; 50] ++ Chr.NUL :: replicate 47 0) = Some [52; 50].
Proof.
  apply (digit_string_round_trip [52; 50] Chr.NUL (replicate 47 0)).
  - simpl. lia.
  - repeat constructor.
  - left. simpl. discriminate.
  - reflexivity.
Defined.

End UartFacts.

(** ** The calculator *)

Module CalculatorFacts.
Import Uart UartSpec Calculator CalculatorSpec.

Section Facts.
Context `{Config}.

#[local] Arguments xReceiveUartMsg : simpl never.
#[local] Arguments post : simpl never.

Ltac run_task :=
  unfold calculator_round, mbind, task_bind, xQueueSend, in_bounds; simpl.

(** The division case of the switch is the bare quotient. *)
Lemma calculate_slash a b :
  calculate Chr.slash a b
  = (lCalcNum ← sdiv32 a b; xQueueSend (MsgCalcResult lCalcNum)).
Proof. reflexivity. Qed.

Lemma sdiv32_by_zero a w : sdiv32 a 0 w = Trap DivisionByZero w.
Proof. reflexivity. Qed.

(** C4: with two valid integers read, no quit, and the operator /, the
    calculator computes [lFirstNum / lSecondNum] with no test of the divisor;
    when the divisor is 0 the round ends in the division-by-zero fault. *)
Theorem calculator_divides_unguarded q w m1 w1 a m2 w2 b m3 w3 :
  xReceiveUartMsg (memset0 50) q (post MsgCalcFirstInteger w)
    = Done (true, m1, false) w1 ->
  lUartMsgtoInt32 m1 = Some a -> a <> Int.INVALID_NUM ->
  xReceiveUartMsg (memset0 50) false (post MsgCalcSecondInteger w1)
    = Done (true, m2, false) w2 ->
  lUartMsgtoInt32 m2 = Some b -> b <> Int.INVALID_NUM ->
  xReceiveUartMsg (memset0 50) false (post MsgCalcOperator w2)
    = Done (true, m3, false) w3 ->
  m3 !!! 0%nat = Chr.slash ->
  calculator_round q w
    = (lCalcNum ← sdiv32 a b;
       _ ← xQueueSend (MsgCalcResult lCalcNum);
       mret false) w3
  /\ (b = 0 -> calculator_round q w = Trap DivisionByZero w3).
Proof.
  intros H1 Ha Hav H2 Hb Hbv H3 Hop.
  assert (calculator_round q w
          = (lCalcNum ← sdiv32 a b;
             _ ← xQueueSend (MsgCalcResult lCalcNum);
             mret false) w3) as Hrun.
  { run_task. rewrite H1, Ha. simpl.
    apply Z.eqb_neq in Hav. rewrite Hav. simpl.
    rewrite H2, Hb. simpl.
    apply Z.eqb_neq in Hbv. rewrite Hbv. simpl.
    rewrite H3. simpl. rewrite Hop, calculate_slash.
    unfold mbind, task_bind, xQueueSend. by destruct (sdiv32 a b w3). }
  split; [done|]. intros ->. rewrite Hrun.
  unfold mbind, task_bind. by rewrite sdiv32_by_zero.
Qed.

(** C6 (amended): in the calculator a read that times out posts the one-line
    timeout notice, and an operator that is not one of + - * / posts the
    unrecognized-operator notice, before the loop restarts; a first or second
    integer that is not a number, on a read that succeeds without quit,
    posts nothing: the round ends with no more than the prompts in the
    queue. *)
Theorem calculator_error_paths q w :
  (forall buf q0 w0 m q1 w1,
      xReceiveUartMsg buf q0 w0 = Done (false, m, q1) w1 ->
      uart_queue w1 = uart_queue w0 ++ [MsgUserInputTimeout])
  /\ (forall m1 q1 w1 v,
      xReceiveUartMsg (memset0 50) q (post MsgCalcFirstInteger w)
        = Done (false, m1, q1) w1 ->
      lUartMsgtoInt32 m1 = Some v ->
      calculator_round q w = Done q1 w1
      /\ uart_queue w1
         = uart_queue w ++ [MsgCalcFirstInteger; MsgUserInputTimeout])
  /\ (forall m1 w1,
      xReceiveUartMsg (memset0 50) q (post MsgCalcFirstInteger w)
        = Done (true, m1, false) w1 ->
      lUartMsgtoInt32 m1 = Some Int.INVALID_NUM ->
      calculator_round q w = Done false w1
      /\ uart_queue w1 = uart_queue w ++ [MsgCalcFirstInteger])
  /\ (forall m1 w1 a m2 w2,
      xReceiveUartMsg (memset0 50) q (post MsgCalcFirstInteger w)
        = Done (true, m1, false) w1 ->
      lUartMsgtoInt32 m1 = Some a -> a <> Int.INVALID_NUM ->
      xReceiveUartMsg (memset0 50) false (post MsgCalcSecondInteger w1)
        = Done (true, m2, false) w2 ->
      lUartMsgtoInt32 m2 = Some Int.INVALID_NUM ->
      calculator_round q w = Done false w2
      /\ uart_queue w2
         = uart_queue w ++ [MsgCalcFirstInteger; MsgCalcSecondInteger])
  /\ (forall m1 w1 a m2 w2 b m3 w3,
      xReceiveUartMsg (memset0 50) q (post MsgCalcFirstInteger w)
        = Done (true, m1, false) w1 ->
      lUartMsgtoInt32 m1 = Some a -> a <> Int.INVALID_NUM ->
      xReceiveUartMsg (memset0 50) false (post MsgCalcSecondInteger w1)
        = Done (true, m2, false) w2 ->
      lUartMsgtoInt32 m2 = Some b -> b <> Int.INVALID_NUM ->
      xReceiveUartMsg (memset0 50) false (post MsgCalcOperator w2)
        = Done (true, m3, false) w3 ->
      m3 !!! 0%nat ∉ [Chr.plus; Chr.minus; Chr.star; Chr.slash] ->
      calculator_round q w = Done false (post MsgUnrecognizedOperator w3)).
Proof.
  split; [|split; [|split; [|split]]].
  - intros buf q0 w0 m q1 w1 Hread.
    pose proof (UartFacts.xReceiveUartMsg_posts buf q0 w0) as Hposts.
    by rewrite Hread in Hposts.
  - intros m1 q1 w1 v Hread Hparse.
    pose proof (UartFacts.xReceiveUartMsg_posts (memset0 50) q
                  (post MsgCalcFirstInteger w)) as Hposts.
    rewrite Hread in Hposts. split.
    + run_task. by rewrite Hread, Hparse.
    + rewrite Hposts. unfold post. simpl. by rewrite <- app_assoc.
  - intros m1 w1 Hread Hparse.
    pose proof (UartFacts.xReceiveUartMsg_posts (memset0 50) q
                  (post MsgCalcFirstInteger w)) as Hposts.
    rewrite Hread in Hposts. split; [|done].
    run_task. by rewrite Hread, Hparse.
  - intros m1 w1 a m2 w2 H1 Ha Hav H2 Hb.
    pose proof (UartFacts.xReceiveUartMsg_posts (memset0 50) q
                  (post MsgCalcFirstInteger w)) as Hp1.
    pose proof (UartFacts.xReceiveUartMsg_posts (memset0 50) false
                  (post MsgCalcSecondInteger w1)) as Hp2.
    rewrite H1 in Hp1. rewrite H2 in Hp2. split.
    + run_task. rewrite H1, Ha. simpl.
      apply Z.eqb_neq in Hav. rewrite Hav. simpl. by rewrite H2, Hb.
    + rewrite Hp2. unfold post at 1. simpl. rewrite Hp1. unfold post. simpl.
      by rewrite <- app_assoc.
  - intros m1 w1 a m2 w2 b m3 w3 H1 Ha Hav H2 Hb Hbv H3 Hop.
    run_task. rewrite H1, Ha. simpl.
    apply Z.eqb_neq in Hav. rewrite Hav. simpl.
    rewrite H2, Hb. simpl.
    apply Z.eqb_neq in Hbv. rewrite Hbv. simpl. rewrite H3. simpl.
    rewrite !not_elem_of_cons in Hop. destruct Hop as (Hp & Hm & Hs & Hd & _).
    apply Z.eqb_neq in Hp, Hm, Hs, Hd.
    unfold calculate. by rewrite Hp, Hm, Hs, Hd.
Qed.

End Facts.

Lemma calculator_divides_unguarded_witness :
  exists w3,
    @calculator_round nucleo false seven_zero_slash = Trap DivisionByZero w3.
Proof.
  eexists.
  refine (proj2 (@calculator_divides_unguarded nucleo false seven_zero_slash
                   _ _ 7 _ _ 0 _ _ _ _ _ _ _ _ _ _) eq_refl).
  - lazy. reflexivity.
  - lazy. reflexivity.
  - vm_compute. discriminate.
  - lazy. reflexivity.
  - lazy. reflexivity.
  - vm_compute. discriminate.
  - lazy. reflexivity.
  - lazy. reflexivity.
Defined.

(** The calculator on 7, 3 and *: the result 21 is posted. *)
Example seven_times_three :
  @calculator_round nucleo false
    (console (typed 5 [55] ++ typed 5 [51] ++ typed 5 [Chr.star]))
  = Done false
      (World 30 []
         [MsgCalcFirstInteger; MsgCalcSecondInteger; MsgCalcOperator;
          MsgCalcResult 21] true []).
Proof. vm_compute. reflexivity. Qed.

(** C6 (counterexample): after the line ab the round has posted its first
    prompt and nothing else. *)
Lemma invalid_number_is_silent : ~ invalid_number_is_reported.
Proof.
  intros Hclaim.
  edestruct (Hclaim (console (typed 0 [97; 98]))) as (m & Hin & Hm);
    [by lazy | by lazy |].
  change (m ∈ [MsgCalcFirstInteger]) in Hin.
  apply list_elem_of_singleton in Hin. by subst.
Qed.

Lemma calculator_error_paths_witness :
  exists w1,
    @calculator_round nucleo false (console (typed 0 [97; 98])) = Done false w1
    /\ uart_queue w1 = [MsgCalcFirstInteger].
Proof.
  eexists.
  refine (proj1 (proj2 (proj2 (@calculator_error_paths nucleo false
                                 (console (typed 0 [97; 98]))))) _ _ _ _).
  - lazy. reflexivity.
  - lazy. reflexivity.
Defined.

End CalculatorFacts.

(** ** Setting the date and the time *)

Module ClockFacts.
Import Uart UartSpec Clock ClockSpec.

Section Facts.
Context `{Config}.

Lemma grows_ret {A} (a : A) : grows (mret a).
Proof. intros w. exists []. simpl. by rewrite app_nil_r. Qed.

Lemma grows_send m : grows (xQueueSend m).
Proof. intros w. by exists [m]. Qed.

Lemma grows_in_bounds {A} (r : option A) : grows (in_bounds r).
Proof. intros w. exists []. destruct r; simpl; by rewrite app_nil_r. Qed.

Lemma grows_receive buf q : grows (xReceiveUartMsg buf q).
Proof.
  intros w. pose proof (UartFacts.xReceiveUartMsg_posts buf q w) as Hp.
  destruct (xReceiveUartMsg buf q w) as [[[[] ?] ?] w'|w'|e w']; simpl;
    rewrite Hp; eauto using app_nil_r.
  all: exists []; by rewrite app_nil_r.
Qed.

Lemma grows_set_time t : grows (RTC_SetTime t).
Proof.
  intros w. exists []. unfold RTC_SetTime.
  destruct (rtc_ready w); simpl; by rewrite app_nil_r.
Qed.

Lemma grows_set_date d : grows (RTC_SetDate d).
Proof.
  intros w. exists []. unfold RTC_SetDate.
  destruct (rtc_ready w); simpl; by rewrite app_nil_r.
Qed.

Lemma grows_bind {A B} (m : task A) (f : A -> task B) :
  grows m -> (forall a, grows (f a)) -> grows (m ≫= f).
Proof.
  intros Hm Hf w. unfold mbind, task_bind.
  destruct (Hm w) as [s1 H1].
  destruct (m w) as [a w'|w'|e w']; simpl in *; eauto.
  destruct (Hf a w') as [s2 H2]. exists (s1 ++ s2).
  by rewrite H2, H1, app_assoc.
Qed.

Ltac grow :=
  repeat (cbv beta zeta;
    match goal with
    | |- grows (mret _) => apply grows_ret
    | |- grows (xQueueSend _) => apply grows_send
    | |- grows (in_bounds _) => apply grows_in_bounds
    | |- grows (xReceiveUartMsg _ _) => apply grows_receive
    | |- grows (RTC_SetTime _) => apply grows_set_time
    | |- grows (RTC_SetDate _) => apply grows_set_date
    | |- grows (_ ≫= _) => apply grows_bind; [|intros ?]
    | |- grows (if ?c then _ else _) => destruct c
    | |- grows (match ?p with _ => _ end) => destruct p
    end).

(** The date steps open with their prompt. *)
Lemma set_date_steps_prompts q w :
  exists suffix,
    uart_queue (final_world (set_date_steps q w))
    = uart_queue w ++ MsgDateDay :: suffix.
Proof.
  assert (forall k : unit -> task bool, (forall u, grows (k u)) ->
            exists suffix,
              uart_queue (final_world ((xQueueSend MsgDateDay ≫= k) w))
              = uart_queue w ++ MsgDateDay :: suffix) as Hk.
  { intros k Hgrows. unfold mbind, task_bind, xQueueSend.
    destruct (Hgrows tt (post MsgDateDay w)) as [s Hs]. exists s.
    rewrite Hs. unfold post. simpl. by rewrite <- app_assoc. }
  apply Hk. intros []. grow.
Qed.

(** C5 (what the code does where the claim fails): when the hour is read
    without quit but the read timed out or the hour is not valid, the flow
    does not stop: it goes on with the date steps, whose first prompt is
    posted. *)
Theorem date_entry_follows_failed_time_entry w ok m1 w1 v :
  xReceiveUartMsg (memset0 50) false (post MsgTimeHour w)
    = Done (ok, m1, false) w1 ->
  lUartMsgtoInt32 m1 = Some v ->
  ok && between 0 23 v = false ->
  vSetDateAndTime false w = set_date_steps false w1
  /\ exists suffix,
       uart_queue (final_world (vSetDateAndTime false w))
       = uart_queue w1 ++ MsgDateDay :: suffix.
Proof.
  intros Hread Hparse Hbad.
  assert (vSetDateAndTime false w = set_date_steps false w1) as Hrun.
  { unfold vSetDateAndTime, set_time_steps, mbind at 1 2 3, task_bind at 1 2 3.
    unfold xQueueSend at 1. rewrite Hread.
    unfold mbind at 1, task_bind at 1, in_bounds at 1. rewrite Hparse.
    change (negb false) with true. rewrite andb_true_r, Hbad. reflexivity. }
  split; [done|]. rewrite Hrun. apply set_date_steps_prompts.
Qed.

End Facts.

Lemma date_entry_follows_failed_time_entry_witness :
  exists w1,
    @vSetDateAndTime nucleo false hour_24_then_a_date
    = @set_date_steps nucleo false w1
    /\ exists suffix,
         uart_queue (final_world (@vSetDateAndTime nucleo false hour_24_then_a_date))
         = uart_queue w1 ++ MsgDateDay :: suffix.
Proof.
  eexists.
  refine (@date_entry_follows_failed_time_entry nucleo hour_24_then_a_date
            true _ _ 24 _ _ _).
  - lazy. reflexivity.
  - lazy. reflexivity.
  - reflexivity.
Defined.

(** After the invalid hour every date step is prompted and the date is
    written. *)
Example invalid_hour_still_sets_date :
  @vSetDateAndTime nucleo false hour_24_then_a_date
  = Done false
      (World 60 []
         [MsgTimeHour; MsgDateDay; MsgDateMonth; MsgDateYear; MsgDateWeekDay]
         true [WroteDate (RtcDate 1 1 1 21)]).
Proof. vm_compute. reflexivity. Qed.

(** The same after the hour prompt timed out. *)
Example timed_out_hour_still_sets_date :
  @vSetDateAndTime nucleo false late_hour_then_a_date
  = Done false
      (World 30045 []
         [MsgTimeHour; MsgUserInputTimeout; MsgDateDay; MsgDateMonth;
          MsgDateYear; MsgDateWeekDay]
         true [WroteDate (RtcDate 1 1 1 21)]).
Proof. vm_compute. reflexivity. Qed.

End ClockFacts.

(** ** The temperature extrema *)

Module TempMonitorFacts.
Import TempMonitor TempMonitorSpec.

(** While the run flag is set a cycle tracks the reading in the record it
    found; the cycle that takes the start notification tracks it in the
    reset record; without a notification the task stays blocked. *)
Lemma monitor_cycle_running e r s :
  xRunTempMonitor e = true -> fst <$> monitor_cycle e r s = Some (track r s).
Proof. intros He. unfold monitor_cycle. by rewrite He. Qed.

Lemma monitor_cycle_start e r s :
  xRunTempMonitor e = false -> notification e = true ->
  fst <$> monitor_cycle e r s = Some (track r reset_stats).
Proof. intros He Hn. unfold monitor_cycle. by rewrite He, Hn. Qed.

Lemma monitor_cycle_idle e r s :
  xRunTempMonitor e = false -> notification e = false ->
  monitor_cycle e r s = None.
Proof. intros He Hn. unfold monitor_cycle. by rewrite He, Hn. Qed.

(** One cycle: the highest never falls, the lowest never rises, and one
    extremum at most moves, with its date and time. *)
Lemma track_step r s :
  temp_le (fHighestTemp s) (fHighestTemp (track r s))
  /\ temp_le (fLowestTemp (track r s)) (fLowestTemp s)
  /\ (track r s
        = TempRecord (fCurrentTemp r) (fLowestTemp s)
            (xCurrentDate r) (xCurrentTime r) (xDateForLTemp s) (xTimeForLTemp s)
        /\ SFltb (fHighestTemp s) (fCurrentTemp r) = true
      \/ track r s
        = TempRecord (fHighestTemp s) (fCurrentTemp r)
            (xDateForHTemp s) (xTimeForHTemp s) (xCurrentDate r) (xCurrentTime r)
        /\ SFltb (fHighestTemp s) (fCurrentTemp r) = false
        /\ SFltb (fCurrentTemp r) (fLowestTemp s) = true
      \/ track r s = s
        /\ SFltb (fHighestTemp s) (fCurrentTemp r) = false
        /\ SFltb (fCurrentTemp r) (fLowestTemp s) = false).
Proof.
  unfold track, temp_le.
  destruct (SFltb (fHighestTemp s) (fCurrentTemp r)) eqn:Hh; simpl.
  { split; [by right|]. split; [by left|]. by left. }
  destruct (SFltb (fCurrentTemp r) (fLowestTemp s)) eqn:Hl; simpl.
  { split; [by left|]. split; [by right|]. right. by left. }
  split; [by left|]. split; [by left|]. right. by right.
Qed.

Lemma monitor_run_lookup cycles : forall s0 i s s',
  (s0 :: monitor_run s0 cycles) !! i = Some s ->
  (s0 :: monitor_run s0 cycles) !! S i = Some s' ->
  exists e r out,
    cycles !! i = Some (e, r) /\ monitor_cycle e r s = Some (s', out).
Proof.
  induction cycles as [|[e r] cycles IH]; intros s0 i s s' H1 H2.
  - destruct i; simpl in *; [discriminate H2|].
    by rewrite lookup_nil in H1.
  - simpl in H1, H2.
    destruct (monitor_cycle e r s0) as [[s1 out]|] eqn:Hcycle.
    + destruct i as [|i]; simpl in *.
      * inversion H1; inversion H2; subst. eauto.
      * by apply (IH s1).
    + destruct i as [|i]; simpl in *; [discriminate H2|].
      by rewrite lookup_nil in H1.
Qed.

(** C9: within one monitoring session, from one sampling cycle to the next
    the tracked highest temperature does not decrease and the tracked lowest
    does not increase, and the cycle changes at most one extremum: the
    highest, with its date and time, when the sample is above it; otherwise
    the lowest, with its date and time, when the sample is below it. *)
Theorem session_extrema_monotone cycles s0 i e r s s' :
  (s0 :: monitor_run s0 cycles) !! i = Some s ->
  (s0 :: monitor_run s0 cycles) !! S i = Some s' ->
  cycles !! i = Some (e, r) ->
  xRunTempMonitor e = true ->
  temp_le (fHighestTemp s) (fHighestTemp s')
  /\ temp_le (fLowestTemp s') (fLowestTemp s)
  /\ (s' = TempRecord (fCurrentTemp r) (fLowestTemp s)
             (xCurrentDate r) (xCurrentTime r)
             (xDateForLTemp s) (xTimeForLTemp s)
        /\ SFltb (fHighestTemp s) (fCurrentTemp r) = true
      \/ s' = TempRecord (fHighestTemp s) (fCurrentTemp r)
               (xDateForHTemp s) (xTimeForHTemp s)
               (xCurrentDate r) (xCurrentTime r)
        /\ SFltb (fHighestTemp s) (fCurrentTemp r) = false
        /\ SFltb (fCurrentTemp r) (fLowestTemp s) = true
      \/ s' = s
        /\ SFltb (fHighestTemp s) (fCurrentTemp r) = false
        /\ SFltb (fCurrentTemp r) (fLowestTemp s) = false).
Proof.
  intros H1 H2 Hcycle Hrun.
  destruct (monitor_run_lookup _ _ _ _ _ H1 H2) as (e' & r' & out & Hi & Hstep).
  rewrite Hcycle in Hi. injection Hi as <- <-.
  pose proof (monitor_cycle_running e r s Hrun) as Htrack.
  rewrite Hstep in Htrack. injection Htrack as ->.
  apply track_step.
Qed.

Lemma session_extrema_monotone_witness :
  temp_le (fHighestTemp after_25) (fHighestTemp after_30)
  /\ temp_le (fLowestTemp after_30) (fLowestTemp after_25).
Proof.
  destruct (session_extrema_monotone three_cycles reset_stats 1
              (CycleEnv true false false) (deg 15728640 (-19))
              after_25 after_30 eq_refl eq_refl eq_refl eq_refl)
    as (Hh & Hl & _).
  exact (conj Hh Hl).
Defined.

End TempMonitorFacts.

(** ** The wake interrupt and the LED timer handle *)

Module BoardFacts.
Import Board BoardSpec.

(** C7 (what the code does where the claim fails): the handler clears
    [xGoToSleep] and delivers one notification to the Main Menu task, as
    claimed, but the pointer it then reads through,
    [pxIsMainMenuTaskHigherPriority], is [NULL] and names no storage: the
    handler ends in a read through a null pointer, whatever it interrupted
    and whatever memory holds. *)
Theorem wake_handler_reads_through_null outranks mem b :
  exists b',
    USART2_IRQHandler outranks mem b = IsrFault NullDereference b'
    /\ xGoToSleep b' = false
    /\ usart2_rxne_pending b' = false
    /\ main_menu_notifications b' = S (main_menu_notifications b)
    /\ yields b' = yields b
    /\ load NULL mem = None.
Proof.
  unfold USART2_IRQHandler, xTaskNotifyFromISR, load, NULL. simpl.
  eexists. repeat split; reflexivity.
Qed.

Lemma suspend_frees b h :
  pxLedToggleTimer b = Some h ->
  stale h (vManageAppSleep_suspend b)
  /\ timer_cmds (vManageAppSleep_suspend b)
     = timer_cmds b ++ [CmdStop h; CmdDelete h].
Proof.
  intros Hh. unfold stale, vManageAppSleep_suspend, vLedToggleDisable.
  rewrite Hh. simpl. rewrite Hh. simpl.
  split; [split|]; [done | apply lookup_delete_eq | by rewrite <- app_assoc].
Qed.

Lemma sleep_wake_frees b h :
  pxLedToggleTimer b = Some h ->
  stale h (sleep_wake b)
  /\ timer_cmds (sleep_wake b) = timer_cmds b ++ [CmdStop h; CmdDelete h].
Proof.
  intros Hh. destruct (suspend_frees b h Hh) as [[H1 H2] H3].
  unfold sleep_wake, stale. simpl. auto.
Qed.

Lemma enable_stale d b h :
  stale h b ->
  stale h (vLedToggleEnable d b)
  /\ timers (vLedToggleEnable d b) = timers b
  /\ timer_cmds (vLedToggleEnable d b) = timer_cmds b ++ [CmdStart h].
Proof.
  intros [Hh Ht]. unfold stale, vLedToggleEnable. rewrite Hh. simpl.
  assert (alter (set_running true) h (timers b) = timers b) as Hsame.
  { apply map_eq. intros k. rewrite lookup_alter.
    case_decide; [subst; by rewrite Ht | done]. }
  rewrite Hsame. auto.
Qed.

Lemma disable_stale b h : stale h b -> stale h (vLedToggleDisable b).
Proof.
  intros [Hh Ht]. unfold stale, vLedToggleDisable. rewrite Hh. simpl.
  split; [done|]. rewrite lookup_alter. case_decide; [by rewrite Ht | done].
Qed.

Lemma run_op_stale op b h : stale h b -> stale h (run_op b op).
Proof.
  intros Hs. destruct op; simpl.
  - by apply enable_stale.
  - by apply disable_stale.
  - destruct Hs as [Hh _]. by apply sleep_wake_frees.
Qed.

Lemma run_ops_stale ops : forall b h, stale h b -> stale h (foldl run_op b ops).
Proof.
  induction ops as [|op ops IH]; intros b h Hs; simpl; [done|].
  apply IH. by apply run_op_stale.
Qed.

(** C10: when a LED timer exists, going to sleep stops and deletes it and
    leaves [pxLedToggleTimer] as it was; whatever the menu does with the LED
    and sleep mode afterwards, the handle still names the deleted timer, and
    a call of [vLedToggleEnable] creates no timer: it sends one start
    command for the stale handle. *)
Theorem handle_outlives_deleted_timer b h ops d :
  pxLedToggleTimer b = Some h ->
  let b1 := sleep_wake b in
  let b2 := foldl run_op b1 ops in
  timer_cmds b1 = timer_cmds b ++ [CmdStop h; CmdDelete h]
  /\ pxLedToggleTimer b1 = Some h /\ timers b1 !! h = None
  /\ pxLedToggleTimer b2 = Some h /\ timers b2 !! h = None
  /\ pxLedToggleTimer (vLedToggleEnable d b2) = Some h
  /\ timers (vLedToggleEnable d b2) = timers b2
  /\ timer_cmds (vLedToggleEnable d b2) = timer_cmds b2 ++ [CmdStart h].
Proof.
  intros Hh b1 b2.
  destruct (sleep_wake_frees b h Hh) as [Hs1 Hc1].
  pose proof (run_ops_stale ops b1 h Hs1) as Hs2.
  destruct (enable_stale d b2 h Hs2) as ([Hh3 _] & Ht3 & Hc3).
  destruct Hs1, Hs2. repeat split; done.
Qed.

Lemma handle_outlives_deleted_timer_witness :
  pxLedToggleTimer (vLedToggleEnable 500 slept_twice) = Some 0%nat
  /\ timers (vLedToggleEnable 500 slept_twice) = timers slept_twice
  /\ timer_cmds (vLedToggleEnable 500 slept_twice)
     = timer_cmds slept_twice ++ [CmdStart 0%nat].
Proof.
  destruct (handle_outlives_deleted_timer toggling 0%nat
              [OpDisable; OpSleepWake] 500 eq_refl)
    as (_ & _ & _ & _ & _ & H1 & H2 & H3).
  exact (conj H1 (conj H2 H3)).
Defined.

End BoardFacts.

(** ** The handoff *)

Module HandoffFacts.
Import Handoff HandoffSpec.

(** The menu read on the lines 1 and 1q. *)
Example selection_of_1 :
  exists w,
    @MainMenu.read_selection nucleo (console (UartSpec.typed 5 [49]))
    = Done (Some 49) w.
Proof. eexists. vm_compute. reflexivity. Qed.

Example no_selection_on_quit :
  exists w,
    @MainMenu.read_selection nucleo (console (UartSpec.typed 5 [49; 113]))
    = Done None w.
Proof. eexists. vm_compute. reflexivity. Qed.

(** The digits that start a sub-application. *)
Lemma valid_digits :
  choose (ucAppSelected 49) = RunApp Clock
  /\ choose (ucAppSelected 50) = RunApp Game
  /\ choose (ucAppSelected 51) = RunApp Calculator.
Proof. by vm_compute. Qed.

Lemma valid_digits_only c a :
  0 <= c < 256 -> choose (ucAppSelected c) = RunApp a ->
  c = 49 /\ a = Clock \/ c = 50 /\ a = Game \/ c = 51 /\ a = Calculator.
Proof.
  intros Hc. unfold choose, ucAppSelected, Int.wrap_u8,
    RUN_CLOCK, RUN_GAME, RUN_CALCULATOR, MONITOR_TEMP, TOGGLE_LED, SLEEP.
  change (2 ^ 8) with 256.
  assert (c < 48 \/ 48 <= c) as [Hlow|Hhigh] by lia.
  - replace ((c - 48) `mod` 256) with (c + 208)
      by (apply (Z.mod_unique_pos _ _ (-1)); lia).
    repeat match goal with
           | |- context [?x =? ?y] => destruct (x =? y) eqn:?; [lia|]
           end.
    discriminate.
  - rewrite Z.mod_small by lia.
    repeat match goal with
           | |- context [?x =? ?y] =>
               destruct (x =? y) eqn:?;
               [first [discriminate
                      | intros [= <-];
                        repeat first [ split; [lia|done]
                                     | left; split; [lia|done]
                                     | right ]]|]
           end.
    discriminate.
Qed.

Lemma inv_boot : inv boot.
Proof. split; simpl; try done. Qed.

Lemma active_false_iff s a :
  active s a = false <-> pc s a = AppWait /\ notified s a = false.
Proof.
  unfold active. destruct (pc s a); split; try done.
  - by intros [_ ?].
  - by intros [? _].
Qed.

Lemma nobody_active s :
  inv s -> (forall a, menu s <> MenuWait a) -> forall a, active s a = false.
Proof.
  intros Hi Hm a. destruct (active s a) eqn:Ha; [|done].
  apply (inv_menu s Hi) in Ha. by apply Hm in Ha.
Qed.

Lemma exclusive s a b :
  inv s -> active s a = true -> active s b = true -> a = b.
Proof.
  intros Hi Ha Hb. apply (inv_menu s Hi) in Ha, Hb. congruence.
Qed.

Ltac case_app a b :=
  unfold active, upd in *; simpl in *;
  destruct (decide (b = a)) as [->|?]; simpl in *.

(** Every step other than the selection of the sleep option keeps the
    invariant. *)
Lemma step_inv e s s' :
  inv s -> stays_awake e -> step e s = Some s' -> inv s'.
Proof.
  intros Hi Hawake Hstep.
  pose proof (inv_awake s Hi) as [Hns Hna].
  destruct e as [c| | | | |a|a|a]; simpl in Hstep, Hawake.
  - (* Select *)
    destruct (menu s) eqn:Hmenu; try discriminate.
    assert (forall a, active s a = false) as Hidle
      by (apply nobody_active; [done | congruence]).
    pose proof (inv_menu_loop s Hi Hmenu) as Hn.
    destruct (choose (ucAppSelected c)) as [a| | | |];
      try done; try (injection Hstep as <-; done).
    injection Hstep as <-. split; simpl.
    + done.
    + intros b Hb. specialize (Hidle b). apply active_false_iff in Hidle.
      destruct Hidle. congruence.
    + intros b Hb. specialize (Hidle b). case_app a b; [done|].
      congruence.
    + done.
    + done.
    + intros b [= <-] Hb. specialize (Hidle a). apply active_false_iff in Hidle.
      destruct Hidle as [Hpc _]. unfold active, upd in Hb. simpl in Hb.
      rewrite Hpc, decide_True in Hb by done. discriminate.
    + intros b. pose proof (inv_count s Hi b) as Hc.
      pose proof (Hidle b) as Hb. apply active_false_iff in Hb.
      destruct Hb as [Hpc Hnot]. rewrite (Hidle b) in Hc.
      case_app a b; rewrite Hpc.
      * rewrite Nat.add_0_r in Hc. rewrite Hc. lia.
      * by rewrite Hnot.
  - (* NoSelect *)
    destruct (menu s); by simplify_eq.
  - (* MenuResume *)
    destruct (menu s) as [|a| |] eqn:Hmenu; try done.
    destruct (menu_notified s) eqn:Hn; [|done]. injection Hstep as <-.
    assert (forall b, active s b = false) as Hidle.
    { intros b. destruct (active s b) eqn:Hb; [|done].
      apply (inv_blocked s Hi) in Hb. congruence. }
    destruct Hi. split; simpl; try done.
    intros b Hb. change (active s b = true) in Hb. rewrite Hidle in Hb.
    discriminate.
  - (* Wake *)
    destruct (menu s); done.
  - (* Disarm *)
    destruct (menu s); done.
  - (* AppStart *)
    destruct (pc s a) eqn:Hpc; try discriminate.
    destruct (notified s a) eqn:Hnot; try discriminate. injection Hstep as <-.
    assert (active s a = true) as Ha by (unfold active; by rewrite Hpc).
    pose proof (inv_menu s Hi a Ha) as Hmenu.
    pose proof (inv_blocked s Hi a Ha) as Hblocked.
    split; simpl.
    + done.
    + intros b Hb. case_app a b; [done|]. by apply (inv_loop s Hi).
    + intros b Hb. case_app a b; [done|]. by apply (inv_menu s Hi).
    + done.
    + intros Hm. congruence.
    + intros b Hb Hidle. rewrite Hmenu in Hb. injection Hb as <-.
      unfold active, upd in Hidle. simpl in Hidle.
      rewrite decide_True in Hidle by done. discriminate.
    + intros b. pose proof (inv_count s Hi b) as Hc.
      case_app a b; [|done]. by rewrite Hpc, Hnot in Hc.
  - (* AppRound *)
    destruct (pc s a); by simplify_eq.
  - (* AppQuit *)
    destruct (pc s a) eqn:Hpc; try discriminate. injection Hstep as <-.
    assert (active s a = true) as Ha by (unfold active; by rewrite Hpc).
    pose proof (inv_menu s Hi a Ha) as Hmenu.
    pose proof (inv_loop s Hi a Hpc) as Hnot.
    assert (forall b, b <> a -> active s b = false) as Hidle.
    { intros b Hb. destruct (active s b) eqn:Hab; [|done].
      apply (inv_menu s Hi) in Hab. congruence. }
    split; simpl.
    + done.
    + intros b Hb. case_app a b; [discriminate|]. by apply (inv_loop s Hi).
    + intros b Hb. case_app a b; [congruence|].
      specialize (Hidle b). unfold active in Hidle. rewrite Hidle in Hb; done.
    + intros b Hb. case_app a b; [congruence|].
      specialize (Hidle b). unfold active in Hidle. rewrite Hidle in Hb; done.
    + intros Hm. congruence.
    + done.
    + intros b. pose proof (inv_count s Hi b) as Hc.
      case_app a b; [|done]. rewrite Hpc in Hc. rewrite Hnot. lia.
Qed.

Lemma run_inv es : forall s s',
  inv s -> never_sleeps es -> run es s = Some s' -> inv s'.
Proof.
  induction es as [|e es IH]; intros s s' Hi Hawake Hrun; simpl in Hrun.
  - by simplify_eq.
  - destruct (step e s) as [s1|] eqn:Hstep; simpl in Hrun; [|discriminate].
    apply Forall_cons in Hawake as [He Hes].
    eapply IH; [|done..]. by eapply step_inv.
Qed.

(** While a sub-application is active in a run that never sleeps, the Main
    Menu task cannot move. *)
Lemma menu_blocked s a e :
  inv s -> active s a = true -> menu_event e = true -> step e s = None.
Proof.
  intros Hi Ha He.
  pose proof (inv_menu s Hi a Ha) as Hmenu.
  pose proof (inv_blocked s Hi a Ha) as Hn.
  destruct e; try discriminate; simpl; by rewrite Hmenu, ?Hn.
Qed.

(** There, an active sub-application stays active until it quits, and the
    Main Menu task stays at its wait. *)
Lemma active_until_quit es : forall s s' a,
  inv s -> active s a = true -> run es s = Some s' -> AppQuit a ∉ es ->
  inv s' /\ active s' a = true.
Proof.
  induction es as [|e es IH]; intros s s' a Hi Ha Hrun Hq; simpl in Hrun.
  - by simplify_eq.
  - destruct (step e s) as [s1|] eqn:Hstep; simpl in Hrun; [|discriminate].
    apply not_elem_of_cons in Hq as [Hne Hq].
    pose proof (inv_menu s Hi a Ha) as Hmenu.
    assert (stays_awake e) as Hawake.
    { destruct e; try done.
      rewrite (menu_blocked s a) in Hstep; [discriminate | done..]. }
    eapply (IH s1); [by eapply step_inv | | done | done].
    destruct e as [c| | | | |b|b|b];
      try (rewrite (menu_blocked s a) in Hstep; [discriminate | done..]).
    + simpl in Hstep. by rewrite Hmenu in Hstep.
    + simpl in Hstep. destruct (pc s b) eqn:Hpc; try discriminate.
      destruct (notified s b) eqn:Hnot; try discriminate. injection Hstep as <-.
      assert (b = a) as ->.
      { apply (exclusive s); [done| |done]. unfold active. by rewrite Hpc. }
      unfold active, upd. simpl. by rewrite decide_True.
    + simpl in Hstep. destruct (pc s b); by simplify_eq.
    + simpl in Hstep. destruct (pc s b) eqn:Hpc; try discriminate.
      assert (b = a) as ->; [|done].
      apply (exclusive s); [done| |done]. unfold active. by rewrite Hpc.
Qed.

(** In every run, with or without sleep, every step keeps
    [waits_for_active]. *)
Lemma step_waits e s s' :
  waits_for_active s -> step e s = Some s' -> waits_for_active s'.
Proof.
  intros Hw Hstep b. destruct e as [c| | | | |a|a|a]; simpl in Hstep.
  - destruct (menu s) eqn:Hmenu; try discriminate.
    destruct (choose (ucAppSelected c)) as [a| | | |];
      injection Hstep as <-; simpl; try congruence.
    intros [= <-] _. unfold active, upd. simpl. rewrite decide_True by done.
    by destruct (pc s a).
  - destruct (menu s) eqn:Hmenu; simplify_eq. congruence.
  - destruct (menu s), (menu_notified s); by simplify_eq.
  - destruct (menu s) eqn:Hmenu; simplify_eq; simpl; congruence.
  - destruct (menu s); by simplify_eq.
  - destruct (pc s a) eqn:Hpc; try discriminate.
    destruct (notified s a) eqn:Hnot; try discriminate. injection Hstep as <-.
    simpl. intros Hm Hn. specialize (Hw b Hm Hn).
    case_app a b; [done|]. done.
  - destruct (pc s a); simplify_eq. apply Hw.
  - destruct (pc s a); simplify_eq. done.
Qed.

Lemma run_waits es : forall s s',
  waits_for_active s -> run es s = Some s' -> waits_for_active s'.
Proof.
  induction es as [|e es IH]; intros s s' Hw Hrun; simpl in Hrun.
  - by simplify_eq.
  - destruct (step e s) as [s1|] eqn:Hstep; simpl in Hrun; [|discriminate].
    eapply IH; [|done]. by eapply step_waits.
Qed.

Lemma waits_boot : waits_for_active boot.
Proof. by intros a. Qed.

(** C1 (what the code does where the claim fails):
    - in every state in which the Main Menu task reads the digit of a
      sub-application (1 the clock, 2 the game, 3 the calculator), it sends
      one run notification, to the task of that digit and to no other, and
      goes to its own wait;
    - in a run in which the application is never put to sleep, the claim
      holds: while a sub-application is active the Main Menu task is at that
      wait with no notification to take, so it cannot move, that task has
      one run notification more than it sent return notifications, it stays
      so until the task sends its return notification, and no two
      sub-applications are active together;
    - after the sleep option and two bytes on the console, the second
      received between the return of the wait in [vManageAppSleep] and the
      disarming of the RXNE interrupt, the Main Menu task holds a
      notification that no sub-application sent: when it then notifies a
      sub-application [a], its wait returns at once, it is back in its loop
      while [a] is active and has sent no return notification, and on the
      digit of another sub-application [b] it starts [b]: both tasks are in
      their loops together. *)
Theorem handoff_is_exclusive_only_without_sleep :
  (forall s a, menu s = MenuLoop ->
     step (Select (digit a)) s
     = Some (System (MenuWait a) (menu_notified s) (pc s)
               (upd (notified s) a true) (upd (runs s) a (S (runs s a)))
               (returns s)))
  /\ (forall es s, run es boot = Some s -> never_sleeps es ->
        (forall a, active s a = true ->
           menu s = MenuWait a /\ menu_notified s = false
           /\ runs s a = S (returns s a)
           /\ (forall e, menu_event e = true -> step e s = None)
           /\ forall es' s', run es' s = Some s' -> AppQuit a ∉ es' ->
                menu s' = MenuWait a /\ active s' a = true)
        /\ (forall a b, active s a = true -> active s b = true -> a = b))
  /\ (forall a b, a <> b ->
        exists s1 s2,
          run (woken_twice ++ [Select (digit a); MenuResume]) boot = Some s1
          /\ menu s1 = MenuLoop /\ active s1 a = true
          /\ runs s1 a = 1%nat /\ returns s1 a = 0%nat
          /\ run [Select (digit b); AppStart a; AppStart b] s1 = Some s2
          /\ pc s2 a = AppLoop /\ pc s2 b = AppLoop
          /\ returns s2 a = 0%nat /\ returns s2 b = 0%nat).
Proof.
  split; [|split].
  - intros s a Hmenu. destruct a; simpl; rewrite Hmenu; reflexivity.
  - intros es s Hrun Hawake.
    pose proof (run_inv es boot s inv_boot Hawake Hrun) as Hi. split.
    + intros a Ha. split; [by apply (inv_menu s Hi)|].
      split; [by apply (inv_blocked s Hi a)|]. split.
      { pose proof (inv_count s Hi a) as Hc. rewrite Ha in Hc. lia. }
      split; [intros e He; by apply (menu_blocked s a)|].
      intros es' s' Hrun' Hq.
      destruct (active_until_quit es' s s' a Hi Ha Hrun' Hq) as [Hi' Ha'].
      split; [|done]. by apply (inv_menu s' Hi').
    + intros a b. by apply exclusive.
  - intros a b Hab.
    destruct a, b; try (by destruct Hab); eexists _, _.
    all: split; [lazy; reflexivity|].
    all: lazy; repeat split.
Qed.

Lemma handoff_is_exclusive_only_without_sleep_witness :
  exists s1 s2,
    run (woken_twice ++ [Select 49; MenuResume]) boot = Some s1
    /\ menu s1 = MenuLoop /\ active s1 Clock = true
    /\ run [Select 50; AppStart Clock; AppStart Game] s1 = Some s2
    /\ pc s2 Clock = AppLoop /\ pc s2 Game = AppLoop.
Proof.
  destruct handoff_is_exclusive_only_without_sleep as (_ & _ & Hstale).
  destruct (Hstale Clock Game ltac:(done))
    as (s1 & s2 & Hrun1 & Hmenu & Hactive & _ & _ & Hrun2 & Hpc1 & Hpc2 & _).
  exists s1, s2.
  exact (conj Hrun1 (conj Hmenu (conj Hactive (conj Hrun2 (conj Hpc1 Hpc2))))).
Defined.

End HandoffFacts.

(** ** The number parser at its edges *)

Module ParserFacts.
Import Uart UartSpec IntFacts.

Lemma digits_loop_none msg : forall i n,
  digits_loop msg i n = None <-> digit_string msg.
Proof.
  induction msg as [|c msg IH]; intros i n; simpl.
  - split; [constructor | done].
  - destruct (Chr.is_digit c) eqn:Hc.
    + rewrite IH. split; [by constructor | by inversion 1].
    + split; [done|]. inversion 1; congruence.
Qed.

(** Reducing before or after a step of the accumulation is the same. *)
Lemma wrap_s32_step x d :
  Int.wrap_s32 (Int.wrap_s32 x * 10 + d) = Int.wrap_s32 (x * 10 + d).
Proof.
  unfold Int.wrap_s32.
  pose proof (Z.div_mod (x + 2 ^ 31) (2 ^ 32)) as Hx.
  set (k := (x + 2 ^ 31) / 2 ^ 32) in *.
  set (r := (x + 2 ^ 31) mod 2 ^ 32) in *.
  replace ((r - 2 ^ 31) * 10 + d + 2 ^ 31)
    with ((x * 10 + d + 2 ^ 31) + (- (10 * k)) * 2 ^ 32) by lia.
  by rewrite Z.mod_add by lia.
Qed.

Lemma digits_loop_wrap ds : forall n i c rest,
  digit_string ds -> Chr.is_digit c = false ->
  digits_loop (ds ++ c :: rest) i (Int.wrap_s32 n)
  = Some ((i + length ds)%nat, Int.wrap_s32 (value_from n ds)).
Proof.
  induction ds as [|d ds IH]; intros n i c rest Hds Hc; simpl.
  - rewrite Hc. by rewrite Nat.add_0_r.
  - inversion Hds as [|? ? Hd Hds']; subst. rewrite Hd.
    rewrite wrap_s32_step, IH by done. by rewrite Nat.add_succ_r.
Qed.

(** X1: for a buffer that holds at most nine digits before its first byte
    that is no digit, [lUartMsgtoInt32] returns the sentinel [INVALID_NUM]
    exactly when there is no digit at all: a number the user typed is never
    taken for invalid input, and invalid input never for a number. *)
Theorem sentinel_only_without_digits ds c rest :
  (length ds <= 9)%nat -> digit_string ds -> Chr.is_digit c = false ->
  lUartMsgtoInt32 (ds ++ c :: rest) = Some Int.INVALID_NUM <-> ds = [].
Proof.
  intros Hlen Hds Hc. destruct ds as [|d ds].
  - simpl. unfold lUartMsgtoInt32. simpl. by rewrite Hc.
  - rewrite UartFacts.lUartMsgtoInt32_digits; [|simpl in *; lia|done|done].
    pose proof (UartFacts.value_from_ge 0 (d :: ds) (Z.le_refl 0) Hds) as Hge.
    rewrite INVALID_NUM_value. split; [|done]. intros Hv.
    assert (value_from 0 (d :: ds) = -1) by congruence. lia.
Qed.

Lemma sentinel_only_without_digits_witness :
  lUartMsgtoInt32 ([] ++ Chr.minus :: [53; 0]) = Some Int.INVALID_NUM
  <-> @nil Z = [].
Proof.
  apply (sentinel_only_without_digits [] Chr.minus [53; 0]).
  - simpl. lia.
  - constructor.
  - reflexivity.
Defined.

(** X2: [lUartMsgtoInt32] reads the leading digits and nothing else: what
    follows the first byte that is no digit never changes the result. There
    is no limit on the number of digits and no overflow check: the result is
    the decimal value reduced to 32 bits in two's complement. *)
Theorem leading_digits_decide_the_number ds c rest :
  digit_string ds -> Chr.is_digit c = false ->
  lUartMsgtoInt32 (ds ++ c :: rest)
  = Some (if decide (ds = []) then Int.INVALID_NUM
          else Int.wrap_s32 (value_from 0 ds)).
Proof.
  intros Hds Hc. unfold lUartMsgtoInt32.
  change 0 with (Int.wrap_s32 0) at 1.
  rewrite digits_loop_wrap by done. simpl.
  destruct ds as [|d ds]; [done|].
  rewrite decide_False by done. done.
Qed.

Lemma leading_digits_decide_the_number_witness :
  lUartMsgtoInt32 ([52; 50; 57; 52; 57; 54; 55; 50; 57; 53] ++ 0 :: [49])
  = Some Int.INVALID_NUM.
Proof.
  apply (leading_digits_decide_the_number
           [52; 50; 57; 52; 57; 54; 55; 50; 57; 53] 0 [49]).
  - repeat constructor.
  - reflexivity.
Defined.

(** X3: [lUartMsgtoInt32] has no bound on its index: it reads past the end of
    the buffer exactly when every byte of the buffer is a digit. *)
Theorem parser_overruns_a_buffer_of_digits msg :
  lUartMsgtoInt32 msg = None <-> digit_string msg.
Proof.
  unfold lUartMsgtoInt32. rewrite <- (digits_loop_none msg 0%nat 0).
  destruct (digits_loop msg 0 0) as [[i n]|]; simpl; [|done].
  split; [|done]. by destruct (0 <? i)%nat.
Qed.

End ParserFacts.

(** ** Answers typed in time: the reader and the parser together *)

Module EntryFacts.
Import Uart UartSpec EntrySpec IntFacts.

Lemma byte_range x : 0 <= Z.land x 255 < 256.
Proof.
  change 255 with (Z.ones 8). rewrite Z.land_ones by lia.
  apply Z.mod_pos_bound. lia.
Qed.

Lemma value_from_lt ds : forall k n,
  0 <= k -> 0 <= n < 10 ^ k -> digit_string ds ->
  value_from n ds < 10 ^ (k + Z.of_nat (length ds)).
Proof.
  induction ds as [|d ds IH]; intros k n Hk Hn Hds; simpl.
  - rewrite Z.add_0_r. lia.
  - inversion Hds as [|? ? Hd Hds']; subst.
    apply UartFacts.is_digit_range in Hd.
    assert (10 ^ (k + 1) = 10 ^ k * 10) as Hpow by (rewrite Z.pow_add_r; lia).
    replace (k + Z.of_nat (S (length ds)))
      with ((k + 1) + Z.of_nat (length ds)) by lia.
    apply IH; [lia | lia | done].
Qed.

(** The value of a string of 1 to 9 digits. *)
Lemma number_range ds : number ds -> 0 <= value_from 0 ds < 10 ^ 9.
Proof.
  intros [Hlen Hds]. split.
  - by apply UartFacts.value_from_ge.
  - pose proof (value_from_lt ds 0 0 (Z.le_refl 0) ltac:(lia) Hds) as Hlt.
    eapply Z.lt_le_trans; [exact Hlt|]. apply Z.pow_le_mono_r; lia.
Qed.

(** A digit is neither q nor Q. *)
Lemma digits_do_not_quit ds :
  digit_string ds -> Chr.is_quit_letter (default 0 (last ds)) = false.
Proof.
  intros Hds. destruct (last ds) as [d|] eqn:Hlast; simpl; [|done].
  apply last_Some_elem_of in Hlast.
  apply (proj1 (Forall_forall _ _) Hds) in Hlast.
  apply UartFacts.is_digit_range in Hlast.
  unfold Chr.is_quit_letter, Chr.lower_q, Chr.upper_Q. lia.
Qed.

Section Facts.
Context `{Config}.

(** An answer leaves the queue and the clock service as they were. *)
Lemma answers_frame size w bs w' :
  answers size w bs w' ->
  uart_queue w' = uart_queue w /\ rtc_ready w' = rtc_ready w
  /\ rtc_writes w' = rtc_writes w.
Proof. by intros (line & wait_cr & data_cr & rest & _ & _ & ->). Qed.

(** The bytes of an answer: none is a return, and they fit the buffer. *)
Lemma answers_bytes size w bs w' :
  answers size w bs w' ->
  Forall (fun c => 0 <= c < 256 /\ c <> Chr.CR) bs /\ (length bs <= size)%nat.
Proof.
  intros (line & wait_cr & data_cr & rest & Ht & -> & _).
  destruct Ht as [_ Hline _ _ _ _ Hfit]. unfold data_bytes. split.
  - apply Forall_map. eapply Forall_impl; [exact Hline|].
    intros p [_ Hp]. split; [apply byte_range | done].
  - by rewrite length_map.
Qed.

(** What a read gives for an answer typed in time into a cleared buffer. *)
Lemma answers_read size q w bs w' :
  answers size w bs w' ->
  xReceiveUartMsg (memset0 size) q w
  = Done (true, bs ++ replicate (size - length bs) 0,
          q || Chr.is_quit_letter (default 0 (last bs))) w'.
Proof.
  intros (line & wait_cr & data_cr & rest & Ht & -> & ->).
  rewrite (UartFacts.xReceiveUartMsg_line (memset0 size) q w
             line wait_cr data_cr rest).
  - unfold memset0, data_bytes. by rewrite drop_replicate, length_map.
  - unfold memset0. by rewrite length_replicate.
Qed.

(** A number typed in time is read, with the flag as it was, and parsed to
    its value. *)
Lemma answers_number size q w ds w' :
  number ds -> (length ds < size)%nat -> answers size w ds w' ->
  exists cUartMsg,
    xReceiveUartMsg (memset0 size) q w = Done (true, cUartMsg, q) w'
    /\ lUartMsgtoInt32 cUartMsg = Some (value_from 0 ds).
Proof.
  intros [Hlen Hds] Hsize Hans.
  exists (ds ++ replicate (size - length ds) 0). split.
  - rewrite (answers_read _ _ _ _ _ Hans), digits_do_not_quit by done.
    by rewrite orb_false_r.
  - destruct (size - length ds)%nat as [|n] eqn:Hn; [lia|]. simpl.
    by apply UartFacts.lUartMsgtoInt32_digits.
Qed.



(** X5: a number of 1 to 9 digits typed in time into a cleared buffer with
    room for its terminator is received with [pdTRUE], leaves the quit flag
    as the caller passed it, and is parsed by [lUartMsgtoInt32] to its
    decimal value, which lies between 0 and 999999999. *)
Theorem typed_number_is_read_as_its_value size q w ds w' :
  number ds -> (length ds < size)%nat -> answers size w ds w' ->
  exists cUartMsg,
    xReceiveUartMsg (memset0 size) q w = Done (true, cUartMsg, q) w'
    /\ lUartMsgtoInt32 cUartMsg = Some (value_from 0 ds)
    /\ 0 <= value_from 0 ds <= 999999999
    /\ uart_queue w' = uart_queue w.
Proof.
  intros Hds Hsize Hans.
  destruct (answers_number size q w ds w' Hds Hsize Hans) as (m & Hread & Hparse).
  pose proof (number_range ds Hds) as Hrange.
  destruct (answers_frame _ _ _ _ Hans) as (Hq & _).
  exists m. repeat split; try done; lia.
Qed.

(** X7: digits that fill the buffer leave no terminator in it. When exactly
    [size] digits are typed in time into a cleared buffer of [size] bytes
    (50 digits, with the buffers of the tasks), the read returns [pdTRUE]
    with the buffer holding those digits and nothing else, and
    [lUartMsgtoInt32], given that buffer, reads past its end. *)
Theorem full_buffer_leaves_no_terminator size q w ds w' :
  digit_string ds -> length ds = size -> answers size w ds w' ->
  xReceiveUartMsg (memset0 size) q w = Done (true, ds, q) w'
  /\ lUartMsgtoInt32 ds = None.
Proof.
  intros Hds Hlen Hans. split.
  - rewrite (answers_read _ _ _ _ _ Hans), digits_do_not_quit by done.
    by rewrite Hlen, Nat.sub_diag, app_nil_r, orb_false_r.
  - unfold lUartMsgtoInt32.
    by rewrite (proj2 (ParserFacts.digits_loop_none ds 0%nat 0) Hds).
Qed.

End Facts.

(** Discharges [answers] for a line given with its waits. *)
Ltac typed_in_time line wait_cr :=
  exists line, wait_cr, Chr.CR; eexists;
  split;
  [ split;
    [ reflexivity
    | repeat constructor; simpl; try lia; vm_compute; discriminate
    | lia
    | reflexivity
    | vm_compute; split; [discriminate | reflexivity]
    | vm_compute; reflexivity
    | simpl; lia ]
  | split; reflexivity ].


Lemma typed_number_is_read_as_its_value_witness :
  exists cUartMsg,
    @xReceiveUartMsg nucleo (memset0 50) false (console (typed 5 [52; 50]))
    = Done (true, cUartMsg, false) (World 15 [] [] true [])
    /\ lUartMsgtoInt32 cUartMsg = Some 42.
Proof.
  destruct (@typed_number_is_read_as_its_value nucleo 50 false
              (console (typed 5 [52; 50])) [52; 50] (World 15 [] [] true []))
    as (cUartMsg & Hread & Hparse & _).
  - split; [simpl; lia | repeat constructor].
  - simpl. lia.
  - typed_in_time [(5, 52); (5, 50)] 5.
  - exists cUartMsg. exact (conj Hread Hparse).
Defined.

Lemma full_buffer_leaves_no_terminator_witness :
  @xReceiveUartMsg nucleo (memset0 3) false (console (typed 5 [49; 50; 51]))
  = Done (true, [49; 50; 51], false) (World 20 [] [] true [])
  /\ lUartMsgtoInt32 [49; 50; 51] = None.
Proof.
  apply (@full_buffer_leaves_no_terminator nucleo 3 false
           (console (typed 5 [49; 50; 51])) [49; 50; 51]).
  - repeat constructor.
  - reflexivity.
  - typed_in_time [(5, 49); (5, 50); (5, 51)] 5.
Defined.

End EntryFacts.

(** ** The arithmetic of the calculator *)

Module CalculatorArith.
Import Uart UartSpec EntrySpec Calculator IntFacts.

Section Facts.
Context `{Config}.

#[local] Arguments xReceiveUartMsg : simpl never.
#[local] Arguments post : simpl never.

(** The read that follows a prompt answered with a number. *)
Lemma enters_read prompt q w ds w' :
  enters prompt w ds w' ->
  exists cUartMsg,
    xReceiveUartMsg (memset0 50) q (post prompt w) = Done (true, cUartMsg, q) w'
    /\ lUartMsgtoInt32 cUartMsg = Some (value_from 0 ds)
    /\ 0 <= value_from 0 ds < 10 ^ 9
    /\ uart_queue w' = uart_queue w ++ [prompt]
    /\ rtc_ready w' = rtc_ready w /\ rtc_writes w' = rtc_writes w.
Proof.
  intros [Hds Hans].
  destruct (EntryFacts.answers_number 50 q (post prompt w) ds w' Hds)
    as (m & Hread & Hparse);
    [destruct Hds; lia | done |].
  destruct (EntryFacts.answers_frame _ _ _ _ Hans) as (Hq & Hr & Hw).
  exists m. repeat split; try done; by apply EntryFacts.number_range.
Qed.

(** The round up to the switch, when two numbers and an operator that is
    not a quit letter are typed in time. *)
Lemma calculator_round_switch w d1 w1 d2 w2 op w3 :
  enters MsgCalcFirstInteger w d1 w1 ->
  enters MsgCalcSecondInteger w1 d2 w2 ->
  answers 50 (post MsgCalcOperator w2) [op] w3 ->
  Chr.is_quit_letter op = false ->
  calculator_round false w
  = (_ ← calculate op (value_from 0 d1) (value_from 0 d2); mret false) w3.
Proof.
  intros H1 H2 H3 Hop.
  destruct (enters_read _ false _ _ _ H1) as (m1 & Hr1 & Hp1 & Hv1 & _).
  destruct (enters_read _ false _ _ _ H2) as (m2 & Hr2 & Hp2 & Hv2 & _).
  pose proof (EntryFacts.answers_read 50 false _ _ _ H3) as Hr3.
  simpl in Hr3. rewrite Hop in Hr3.
  unfold calculator_round, mbind at 1 2 3, task_bind at 1 2 3.
  unfold xQueueSend at 1. rewrite Hr1.
  unfold mbind at 1, task_bind at 1, in_bounds at 1. rewrite Hp1.
  replace (value_from 0 d1 =? Int.INVALID_NUM) with false
    by (symmetry; apply Z.eqb_neq; rewrite INVALID_NUM_value; lia).
  cbn [negb andb].
  unfold mbind at 1 2 3, task_bind at 1 2 3. unfold xQueueSend at 1. rewrite Hr2.
  unfold mbind at 1, task_bind at 1, in_bounds at 1. rewrite Hp2.
  replace (value_from 0 d2 =? Int.INVALID_NUM) with false
    by (symmetry; apply Z.eqb_neq; rewrite INVALID_NUM_value; lia).
  cbn [negb andb].
  unfold mbind at 1 2, task_bind at 1 2. unfold xQueueSend at 1. rewrite Hr3.
  reflexivity.
Qed.

(** X6: when the user types two numbers of 1 to 9 digits and an operator,
    each in time, the calculator posts its three prompts and then one
    result: the sum, the difference (which may be negative), the product
    reduced to 32 bits, or, for a divisor that is not 0, the quotient. *)
Theorem calculator_computes w d1 w1 d2 w2 op w3 :
  enters MsgCalcFirstInteger w d1 w1 ->
  enters MsgCalcSecondInteger w1 d2 w2 ->
  answers 50 (post MsgCalcOperator w2) [op] w3 ->
  let a := value_from 0 d1 in
  let b := value_from 0 d2 in
  (op = Chr.plus ->
     calculator_round false w = Done false (post (MsgCalcResult (a + b)) w3))
  /\ (op = Chr.minus ->
     calculator_round false w = Done false (post (MsgCalcResult (a - b)) w3))
  /\ (op = Chr.star ->
     calculator_round false w
     = Done false (post (MsgCalcResult (Int.wrap_s32 (a * b))) w3))
  /\ (op = Chr.slash -> b <> 0 ->
     calculator_round false w = Done false (post (MsgCalcResult (a / b)) w3))
  /\ uart_queue w3
     = uart_queue w ++ [MsgCalcFirstInteger; MsgCalcSecondInteger; MsgCalcOperator].
Proof.
  intros H1 H2 H3 a b.
  destruct (enters_read _ false _ _ _ H1) as (_ & _ & _ & Ha & Hq1 & _).
  destruct (enters_read _ false _ _ _ H2) as (_ & _ & _ & Hb & Hq2 & _).
  destruct (EntryFacts.answers_frame _ _ _ _ H3) as (Hq3 & _).
  fold a in Ha. fold b in Hb.
  assert (10 ^ 9 = 1000000000) as Hpow by reflexivity.
  repeat split.
  - intros ->. rewrite (calculator_round_switch w d1 w1 d2 w2 _ w3) by done.
    fold a b. unfold calculate, mbind, task_bind, xQueueSend. simpl.
    rewrite wrap_s32_id by (unfold Int.INT32_MIN, Int.INT32_MAX; lia). done.
  - intros ->. rewrite (calculator_round_switch w d1 w1 d2 w2 _ w3) by done.
    fold a b. unfold calculate, mbind, task_bind, xQueueSend. simpl.
    rewrite wrap_s32_id by (unfold Int.INT32_MIN, Int.INT32_MAX; lia). done.
  - intros ->. by rewrite (calculator_round_switch w d1 w1 d2 w2 _ w3) by done.
  - intros -> Hb0. rewrite (calculator_round_switch w d1 w1 d2 w2 _ w3) by done.
    fold a b. unfold calculate, mbind, task_bind, xQueueSend, sdiv32. simpl.
    replace (b =? 0) with false by (symmetry; apply Z.eqb_neq; lia).
    replace (a =? Int.INT32_MIN) with false
      by (symmetry; apply Z.eqb_neq; unfold Int.INT32_MIN; lia).
    simpl. by rewrite Z.quot_div_nonneg by lia.
  - rewrite Hq3. unfold post. simpl. rewrite Hq2, Hq1.
    by rewrite <- !app_assoc.
Qed.

End Facts.

Lemma calculator_computes_witness :
  exists w3,
    @calculator_round nucleo false
      (console (typed 5 [51] ++ typed 5 [53] ++ typed 5 [Chr.minus]))
    = Done false (post (MsgCalcResult (-2)) w3).
Proof.
  eexists.
  refine (proj1 (proj2 (@calculator_computes nucleo
            (console (typed 5 [51] ++ typed 5 [53] ++ typed 5 [Chr.minus]))
            [51] (World 10 (typed 5 [53] ++ typed 5 [Chr.minus])
                    [MsgCalcFirstInteger] true [])
            [53] (World 20 (typed 5 [Chr.minus])
                    [MsgCalcFirstInteger; MsgCalcSecondInteger] true [])
            Chr.minus _ _ _ _)) eq_refl).
  - split; [split; [simpl; lia | repeat constructor]|].
    EntryFacts.typed_in_time [(5, 51)] 5.
  - split; [split; [simpl; lia | repeat constructor]|].
    EntryFacts.typed_in_time [(5, 53)] 5.
  - EntryFacts.typed_in_time [(5, Chr.minus)] 5.
Defined.

End CalculatorArith.

(** ** Entering a time and a date *)

Module ClockEntry.
Import Uart UartSpec EntrySpec Clock RtcSpec IntFacts.

Section Facts.
Context `{Config}.

#[local] Arguments xReceiveUartMsg : simpl never.
#[local] Arguments post : simpl never.

Ltac run_steps :=
  unfold mbind, task_bind, xQueueSend, in_bounds; simpl.

Lemma between_true lo hi v : lo <= v <= hi -> between lo hi v = true.
Proof. unfold between. lia. Qed.

Lemma RTC_SetTime_ready t w :
  rtc_ready w = true -> RTC_SetTime t w = Done tt (wrote (WroteTime t) w).
Proof. intros Hr. unfold RTC_SetTime, wrote. by rewrite Hr. Qed.

Lemma RTC_SetDate_ready d w :
  rtc_ready w = true -> RTC_SetDate d w = Done true (wrote (WroteDate d) w).
Proof. intros Hr. unfold RTC_SetDate, wrote. by rewrite Hr. Qed.

(** The three time steps, answered with a valid hour, minute and second. *)
Lemma set_time_steps_valid w dh w1 dm w2 ds w3 :
  enters MsgTimeHour w dh w1 -> value_from 0 dh <= 23 ->
  enters MsgTimeMinute w1 dm w2 -> value_from 0 dm <= 59 ->
  enters MsgTimeSecond w2 ds w3 -> value_from 0 ds <= 59 ->
  set_time_steps false w
  = (_ ← RTC_SetTime (RtcTime (value_from 0 dh) (value_from 0 dm)
                              (value_from 0 ds));
     mret false) w3.
Proof.
  intros H1 Hh H2 Hm H3 Hs.
  destruct (CalculatorArith.enters_read _ false _ _ _ H1)
    as (m1 & Hr1 & Hp1 & Hv1 & _).
  destruct (CalculatorArith.enters_read _ false _ _ _ H2)
    as (m2 & Hr2 & Hp2 & Hv2 & _).
  destruct (CalculatorArith.enters_read _ false _ _ _ H3)
    as (m3 & Hr3 & Hp3 & Hv3 & _).
  unfold set_time_steps. run_steps.
  rewrite Hr1, Hp1. simpl. rewrite between_true by lia.
  rewrite Hr2, Hp2. simpl. rewrite between_true by lia.
  rewrite Hr3, Hp3. simpl. rewrite between_true by lia.
  reflexivity.
Qed.

(** The four date steps, answered with a valid day, month, year and
    weekday. *)
Lemma set_date_steps_valid w dd w1 dmo w2 dy w3 dwd w4 :
  enters MsgDateDay w dd w1 -> 1 <= value_from 0 dd <= 31 ->
  enters MsgDateMonth w1 dmo w2 -> 1 <= value_from 0 dmo <= 12 ->
  enters MsgDateYear w2 dy w3 -> value_from 0 dy <= 99 ->
  enters MsgDateWeekDay w3 dwd w4 -> 1 <= value_from 0 dwd <= 7 ->
  set_date_steps false w
  = (success ← RTC_SetDate (RtcDate (value_from 0 dwd) (value_from 0 dmo)
                                    (value_from 0 dd) (value_from 0 dy));
     if (success : bool) then mret false
     else _ ← xQueueSend MsgRtcSetDateError; mret false) w4.
Proof.
  intros H1 Hd H2 Hmo H3 Hy H4 Hwd.
  destruct (CalculatorArith.enters_read _ false _ _ _ H1)
    as (m1 & Hr1 & Hp1 & Hv1 & _).
  destruct (CalculatorArith.enters_read _ false _ _ _ H2)
    as (m2 & Hr2 & Hp2 & Hv2 & _).
  destruct (CalculatorArith.enters_read _ false _ _ _ H3)
    as (m3 & Hr3 & Hp3 & Hv3 & _).
  destruct (CalculatorArith.enters_read _ false _ _ _ H4)
    as (m4 & Hr4 & Hp4 & Hv4 & _).
  unfold set_date_steps. run_steps.
  rewrite Hr1, Hp1. simpl.
  replace (IS_RTC_DATE _) with true by (symmetry; unfold IS_RTC_DATE; lia).
  rewrite Hr2, Hp2. simpl.
  replace (IS_RTC_MONTH _) with true by (symmetry; unfold IS_RTC_MONTH; lia).
  rewrite Hr3, Hp3. simpl. rewrite between_true by lia.
  rewrite Hr4, Hp4. simpl.
  replace (IS_RTC_WEEKDAY _) with true by (symmetry; unfold IS_RTC_WEEKDAY; lia).
  reflexivity.
Qed.

(** X8: when the clock service is ready and the user answers the seven
    prompts of [vSetDateAndTime] in time with a valid hour, minute, second,
    day, month, year and weekday, the function writes exactly that time and
    then exactly that date, posts its seven prompts and nothing else, and
    leaves the quit flag down. *)
Theorem valid_entries_set_the_clock
    w dh w1 dm w2 ds w3 dd w4 dmo w5 dy w6 dwd w7 :
  let time := RtcTime (value_from 0 dh) (value_from 0 dm) (value_from 0 ds) in
  let date := RtcDate (value_from 0 dwd) (value_from 0 dmo)
                      (value_from 0 dd) (value_from 0 dy) in
  rtc_ready w = true ->
  enters MsgTimeHour w dh w1 -> value_from 0 dh <= 23 ->
  enters MsgTimeMinute w1 dm w2 -> value_from 0 dm <= 59 ->
  enters MsgTimeSecond w2 ds w3 -> value_from 0 ds <= 59 ->
  enters MsgDateDay (wrote (WroteTime time) w3) dd w4 ->
  1 <= value_from 0 dd <= 31 ->
  enters MsgDateMonth w4 dmo w5 -> 1 <= value_from 0 dmo <= 12 ->
  enters MsgDateYear w5 dy w6 -> value_from 0 dy <= 99 ->
  enters MsgDateWeekDay w6 dwd w7 -> 1 <= value_from 0 dwd <= 7 ->
  vSetDateAndTime false w = Done false (wrote (WroteDate date) w7)
  /\ rtc_writes (wrote (WroteDate date) w7)
     = rtc_writes w ++ [WroteTime time; WroteDate date]
  /\ uart_queue (wrote (WroteDate date) w7)
     = uart_queue w ++ [MsgTimeHour; MsgTimeMinute; MsgTimeSecond; MsgDateDay;
                        MsgDateMonth; MsgDateYear; MsgDateWeekDay].
Proof.
  intros time date Hready H1 Hh H2 Hm H3 Hs H4 Hd H5 Hmo H6 Hy H7 Hwd.
  destruct (CalculatorArith.enters_read _ false _ _ _ H1)
    as (_ & _ & _ & _ & Hq1 & Hy1 & Hw1).
  destruct (CalculatorArith.enters_read _ false _ _ _ H2)
    as (_ & _ & _ & _ & Hq2 & Hy2 & Hw2).
  destruct (CalculatorArith.enters_read _ false _ _ _ H3)
    as (_ & _ & _ & _ & Hq3 & Hy3 & Hw3).
  destruct (CalculatorArith.enters_read _ false _ _ _ H4)
    as (_ & _ & _ & _ & Hq4 & Hy4 & Hw4).
  destruct (CalculatorArith.enters_read _ false _ _ _ H5)
    as (_ & _ & _ & _ & Hq5 & Hy5 & Hw5).
  destruct (CalculatorArith.enters_read _ false _ _ _ H6)
    as (_ & _ & _ & _ & Hq6 & Hy6 & Hw6).
  destruct (CalculatorArith.enters_read _ false _ _ _ H7)
    as (_ & _ & _ & _ & Hq7 & Hy7 & Hw7).
  simpl in Hq4, Hy4, Hw4.
  assert (rtc_ready w3 = true) as Hready3 by congruence.
  assert (rtc_ready w7 = true) as Hready7 by congruence.
  split; [|split].
  - unfold vSetDateAndTime, mbind at 1, task_bind at 1.
    rewrite (set_time_steps_valid w dh w1 dm w2 ds w3) by done.
    unfold mbind at 1, task_bind at 1. fold time.
    rewrite RTC_SetTime_ready by done. simpl.
    rewrite (set_date_steps_valid _ dd w4 dmo w5 dy w6 dwd w7) by done.
    unfold mbind at 1, task_bind at 1. fold date.
    by rewrite RTC_SetDate_ready.
  - simpl. rewrite Hw7, Hw6, Hw5, Hw4, Hw3, Hw2, Hw1.
    by rewrite <- app_assoc.
  - simpl. rewrite Hq7, Hq6, Hq5, Hq4, Hq3, Hq2, Hq1.
    by rewrite <- !app_assoc.
Qed.

(** *** Whatever is typed, only valid times and dates are written *)

Lemma writes_ret {A} (a : A) : writes (eq []) (mret a).
Proof. intros w. exists []. simpl. by rewrite app_nil_r. Qed.

Lemma writes_send m : writes (eq []) (xQueueSend m).
Proof. intros w. exists []. simpl. by rewrite app_nil_r. Qed.

Lemma writes_in_bounds {A} (r : option A) : writes (eq []) (in_bounds r).
Proof. intros w. exists []. destruct r; simpl; by rewrite app_nil_r. Qed.

Lemma writes_receive buf q : writes (eq []) (xReceiveUartMsg buf q).
Proof.
  intros w. exists []. rewrite app_nil_r.
  unfold xReceiveUartMsg, mbind, task_bind, xTaskGetTickCount, receive.
  pose proof (UartFacts.receive_loop_frame (rx w)
    (Int.wrap_u32 (tick w + pdMS_TO_TICKS 30000)) (tick w) 0 0%nat buf q w) as Hf.
  simpl in Hf. destruct Hf as (_ & _ & Hw).
  destruct (receive_loop _ _ _ _ _ _ _ _) as [[b q'] w'| |]; simpl in *; try done.
  by destruct (_ <? _).
Qed.

(** A step that writes nothing, then a task whose writes satisfy [P]. *)
Lemma writes_after {A B} (P : list rtc_write -> Prop) (m : task A)
    (f : A -> task B) :
  P [] -> writes (eq []) m -> (forall a, writes P (f a)) -> writes P (m ≫= f).
Proof.
  intros HP Hm Hf w. unfold mbind, task_bind.
  destruct (Hm w) as (l & Hl & <-). rewrite app_nil_r in Hl.
  destruct (m w) as [a w1|w1|e w1]; simpl in *.
  - destruct (Hf a w1) as (l & Hl' & HPl). exists l. by rewrite Hl', Hl.
  - exists []. by rewrite app_nil_r.
  - exists []. by rewrite app_nil_r.
Qed.

(** A task whose writes satisfy [P], then steps that write nothing. *)
Lemma writes_before {A B} (P : list rtc_write -> Prop) (m : task A)
    (f : A -> task B) :
  writes P m -> (forall a, writes (eq []) (f a)) -> writes P (m ≫= f).
Proof.
  intros Hm Hf w. unfold mbind, task_bind.
  destruct (Hm w) as (l & Hl & HPl).
  destruct (m w) as [a w1|w1|e w1]; simpl in *; eauto.
  destruct (Hf a w1) as (l' & Hl' & <-). rewrite app_nil_r in Hl'.
  exists l. by rewrite Hl'.
Qed.

Lemma writes_set_time t : valid_time t -> writes time_at_most (RTC_SetTime t).
Proof.
  intros Ht w. unfold RTC_SetTime. destruct (rtc_ready w); simpl.
  - exists [WroteTime t]. split; [done|]. right. eauto.
  - exists []. split; [by rewrite app_nil_r | by left].
Qed.

Lemma writes_set_date d : valid_date d -> writes date_at_most (RTC_SetDate d).
Proof.
  intros Hd w. unfold RTC_SetDate. destruct (rtc_ready w); simpl.
  - exists [WroteDate d]. split; [done|]. right. eauto.
  - exists []. split; [by rewrite app_nil_r | by left].
Qed.

Lemma between_range lo hi v : between lo hi v = true -> lo <= v <= hi.
Proof. unfold between. lia. Qed.

(** Opens one step of a flow: the prompt, the read, the parse and the test
    of what was read; the failing branch writes nothing. *)
Ltac open_step P HP cond :=
  apply (writes_after P); [exact HP | apply writes_send | intros _];
  apply (writes_after P); [exact HP | apply writes_receive | intros [[? ?] ?]];
  apply (writes_after P); [exact HP | apply writes_in_bounds | intros ?];
  match goal with
  | |- writes _ (if ?c then _ else _) =>
      destruct c eqn:cond;
      [ apply andb_true_iff in cond as [_ cond]
      | intros w0; exists []; simpl; by rewrite app_nil_r ]
  end.

Lemma set_time_steps_writes q : writes time_at_most (set_time_steps q).
Proof.
  assert (time_at_most []) as HP by (by left).
  unfold set_time_steps.
  open_step time_at_most HP Hh. apply between_range in Hh.
  open_step time_at_most HP Hm. apply between_range in Hm.
  open_step time_at_most HP Hs. apply between_range in Hs.
  apply writes_before; [by apply writes_set_time | intros _; apply writes_ret].
Qed.

Lemma set_date_steps_writes q : writes date_at_most (set_date_steps q).
Proof.
  assert (date_at_most []) as HP by (by left).
  unfold set_date_steps.
  open_step date_at_most HP Hd. unfold IS_RTC_DATE in Hd.
  open_step date_at_most HP Hm. unfold IS_RTC_MONTH in Hm.
  open_step date_at_most HP Hy. apply between_range in Hy.
  open_step date_at_most HP Hwd. unfold IS_RTC_WEEKDAY in Hwd.
  apply writes_before.
  - apply writes_set_date. unfold valid_date. simpl. lia.
  - intros []; [apply writes_ret|].
    apply (writes_after (eq [])); [done | apply writes_send | intros _].
    apply writes_ret.
Qed.

(** X9: in a run of [vSetDateAndTime] in which no access goes past the end
    of the 50-byte buffer - no line typed is longer than the buffer and none
    fills it with digits - whatever else arrives on the console, and whether
    the function returns or waits for ever for a byte, what it writes to
    the clock service is at most one time, with the hour in 0..23 and the
    minute and second in 0..59, followed by at most one date, with the day
    in 1..31, the month in 1..12, the year in 0..99 and the weekday in
    1..7. *)
Theorem only_valid_times_and_dates_are_written q w :
  within_buffers (vSetDateAndTime q w) ->
  exists added,
    rtc_writes (final_world (vSetDateAndTime q w)) = rtc_writes w ++ added
    /\ time_then_date added.
Proof.
  intros _. unfold vSetDateAndTime, mbind, task_bind.
  destruct (set_time_steps_writes q w) as (ts & Hts & Ht).
  destruct (set_time_steps q w) as [q1 w1|w1|e w1]; simpl in *.
  - destruct q1; simpl.
    + exists ts. split; [done|]. exists ts, []. rewrite app_nil_r.
      split; [done|]. split; [done | by left].
    + destruct (set_date_steps_writes false w1) as (ds & Hds & Hd).
      exists (ts ++ ds). split.
      * by rewrite Hds, Hts, app_assoc.
      * by exists ts, ds.
  - exists ts. split; [done|]. exists ts, []. rewrite app_nil_r.
    split; [done|]. split; [done | by left].
  - exists ts. split; [done|]. exists ts, []. rewrite app_nil_r.
    split; [done|]. split; [done | by left].
Qed.

End Facts.

Ltac entered line :=
  split; [split; [simpl; lia | repeat constructor]
         | EntryFacts.typed_in_time line 5].

Lemma valid_entries_set_the_clock_witness :
  exists w',
    @vSetDateAndTime nucleo false enters_17_00_00_and_3_12_20 = Done false w'
    /\ rtc_writes w'
       = [WroteTime (RtcTime 17 0 0); WroteDate (RtcDate 4 12 3 20)].
Proof.
  eexists.
  refine (let H := @valid_entries_set_the_clock nucleo
                     enters_17_00_00_and_3_12_20
                     [49; 55] _ [48] _ [48] _ [51] _ [49; 50] _ [50; 48] _
                     [52] _ eq_refl _ _ _ _ _ _ _ _ _ _ _ _ _ _ in
          conj (proj1 H) (proj1 (proj2 H))).
  - entered [(5, 49); (5, 55)].
  - simpl. lia.
  - entered [(5, 48)].
  - simpl. lia.
  - entered [(5, 48)].
  - simpl. lia.
  - entered [(5, 51)].
  - simpl. lia.
  - entered [(5, 49); (5, 50)].
  - simpl. lia.
  - entered [(5, 50); (5, 48)].
  - simpl. lia.
  - entered [(5, 52)].
  - simpl. lia.
Defined.

Lemma only_valid_times_and_dates_are_written_witness :
  exists added,
    rtc_writes
      (final_world (@vSetDateAndTime nucleo false enters_17_00_00_and_3_12_20))
    = [] ++ added
    /\ time_then_date added.
Proof.
  apply (@only_valid_times_and_dates_are_written nucleo false
           enters_17_00_00_and_3_12_20).
  vm_compute. exact I.
Defined.

End ClockEntry.

(** ** The selection in the main menu *)

Module MenuFacts.
Import Uart UartSpec EntrySpec MainMenu Handoff MenuRound IntFacts.

(** The first byte of a cleared buffer that received [bs]. *)
Lemma first_byte bs n :
  (0 < length bs + n)%nat -> (bs ++ replicate n 0) !!! 0%nat = hd 0 bs.
Proof.
  intros Hn. destruct bs as [|b bs]; simpl; [|done].
  destruct n; [simpl in Hn; lia | done].
Qed.

(** The digits 1 to 6 select a case of the switch. *)
Lemma choose_digit c :
  49 <= c <= 54 ->
  choose (ucAppSelected c) = choose (c - 48)
  /\ choose (c - 48) <> Unrecognized.
Proof.
  intros Hc. unfold ucAppSelected, Int.wrap_u8.
  rewrite Z.mod_small by lia. split; [done|].
  assert (c = 49 \/ c = 50 \/ c = 51 \/ c = 52 \/ c = 53 \/ c = 54)
    as [->|[->|[->|[->|[->| ->]]]]] by lia; by vm_compute.
Qed.

(** No other byte does: the subtraction of 48 wraps in a [uint8_t]. *)
Lemma choose_other c :
  0 <= c < 256 -> ~ 49 <= c <= 54 -> choose (ucAppSelected c) = Unrecognized.
Proof.
  intros Hc Hno. unfold choose, ucAppSelected, Int.wrap_u8,
    RUN_CLOCK, RUN_GAME, RUN_CALCULATOR, MONITOR_TEMP, TOGGLE_LED, SLEEP.
  change (2 ^ 8) with 256.
  assert (c < 48 \/ 48 <= c) as [Hlow|Hhigh] by lia.
  - replace ((c - 48) `mod` 256) with (c + 208)
      by (apply (Z.mod_unique_pos _ _ (-1)); lia).
    repeat match goal with
           | |- context [?x =? ?y] => destruct (x =? y) eqn:?; [lia|]
           end.
    done.
  - rewrite Z.mod_small by lia.
    repeat match goal with
           | |- context [?x =? ?y] => destruct (x =? y) eqn:?; [lia|]
           end.
    done.
Qed.

Section Facts.
Context `{Config}.

#[local] Arguments xReceiveUartMsg : simpl never.
#[local] Arguments post : simpl never.

(** X10: one turn of the main menu on an answer typed in time. The menu is
    posted; a line that ends in q or Q selects nothing and posts nothing
    more; otherwise the first byte of the line decides: the digits 1 to 6
    take their case of the switch and post nothing more, and any other
    first byte, the empty line included, takes the default case, which
    posts the unrecognized-option notice. *)
Theorem menu_selection w bs w' :
  answers 50 (post MsgMainMenu w) bs w' ->
  let c := hd 0 bs in
  let quit := Chr.is_quit_letter (default 0 (last bs)) in
  (quit = true -> select_app w = Done None w')
  /\ (quit = false -> 49 <= c <= 54 ->
        select_app w = Done (Some (choose (c - 48))) w'
        /\ choose (c - 48) <> Unrecognized)
  /\ (quit = false -> ~ 49 <= c <= 54 ->
        select_app w
        = Done (Some Unrecognized) (post MsgUnrecognizedOption w'))
  /\ uart_queue w' = uart_queue w ++ [MsgMainMenu].
Proof.
  intros Hans c quit.
  pose proof (EntryFacts.answers_read 50 false _ _ _ Hans) as Hread.
  destruct (EntryFacts.answers_bytes _ _ _ _ Hans) as [Hbytes Hfit].
  destruct (EntryFacts.answers_frame _ _ _ _ Hans) as (Hq & _).
  simpl in Hread. fold quit in Hread.
  assert (0 <= c < 256) as Hc.
  { unfold c. destruct Hbytes as [|b bs' [Hb _] _]; simpl; lia. }
  assert (forall q0, quit = q0 ->
            read_selection w
            = Done (if q0 then None else Some c) w') as Hsel.
  { intros q0 Hq0. unfold read_selection, mbind, task_bind, xQueueSend.
    rewrite Hread, Hq0. destruct q0; simpl; [done|].
    rewrite first_byte by lia. done. }
  repeat split.
  - intros Hquit. unfold select_app, mbind at 1, task_bind at 1.
    by rewrite (Hsel true).
  - unfold select_app, mbind at 1, task_bind at 1.
    rewrite (Hsel false) by done.
    destruct (choose_digit c) as [Hch Hne]; [done|]. rewrite Hch.
    by destruct (choose (c - 48)).
  - by apply choose_digit.
  - intros Hquit Hno. unfold select_app, mbind at 1, task_bind at 1.
    rewrite (Hsel false) by done. by rewrite choose_other.
  - done.
Qed.

End Facts.

Lemma menu_selection_witness :
  @select_app nucleo (console (typed 5 []))
  = Done (Some Unrecognized)
      (World 5 [] [MsgMainMenu; MsgUnrecognizedOption] true []).
Proof.
  assert (@answers nucleo 50 (post MsgMainMenu (console (typed 5 []))) []
            (World 5 [] [MsgMainMenu] true [])) as Hans
    by EntryFacts.typed_in_time (@nil (Z * Z)) 5.
  destruct (@menu_selection nucleo _ _ _ Hans) as (_ & _ & Hdefault & _).
  apply Hdefault; [reflexivity | simpl; lia].
Defined.

End MenuFacts.

(** ** The LED timer before any sleep *)

Module LedFacts.
Import Board LedSpec Idle.

(** The first call creates the timer and starts it. *)
Lemma enable_none d b :
  pxLedToggleTimer b = None ->
  let h := fresh (dom (timers b)) in
  pxLedToggleTimer (vLedToggleEnable d b) = Some h
  /\ timers b !! h = None
  /\ timers (vLedToggleEnable d b) = <[h := Timer d true]> (timers b).
Proof.
  intros Hnone h. unfold vLedToggleEnable. rewrite Hnone. simpl.
  split; [done|]. split.
  - apply not_elem_of_dom, is_fresh.
  - by rewrite alter_insert_eq.
Qed.

(** A later call starts the timer it finds. *)
Lemma enable_some d b h t m :
  pxLedToggleTimer b = Some h -> timers b = <[h := t]> m ->
  pxLedToggleTimer (vLedToggleEnable d b) = Some h
  /\ timers (vLedToggleEnable d b) = <[h := set_running true t]> m.
Proof.
  intros Hh Ht. unfold vLedToggleEnable. rewrite Hh. simpl.
  by rewrite Ht, alter_insert_eq.
Qed.

Lemma disable_some b h t m :
  pxLedToggleTimer b = Some h -> timers b = <[h := t]> m ->
  pxLedToggleTimer (vLedToggleDisable b) = Some h
  /\ timers (vLedToggleDisable b) = <[h := set_running false t]> m
  /\ led_on (vLedToggleDisable b) = false.
Proof.
  intros Hh Ht. unfold vLedToggleDisable. rewrite Hh. simpl.
  by rewrite Ht, alter_insert_eq.
Qed.

Lemma run_op_one_timer b0 b op :
  pxLedToggleTimer b0 = None -> one_timer b0 b -> op <> OpSleepWake ->
  one_timer b0 (run_op b op).
Proof.
  intros H0 [[Hnone ->]|(h & t & Hh & Hfree & Ht)] Hop;
    destruct op as [d| |]; try done; simpl.
  - right. destruct (enable_none d b0 H0) as (Hh & Hfree & Ht). eauto.
  - left. unfold vLedToggleDisable. by rewrite H0.
  - right. destruct (enable_some d b h t _ Hh Ht) as (Hh' & Ht'). eauto.
  - right. destruct (disable_some b h t _ Hh Ht) as (Hh' & Ht' & _). eauto.
Qed.

Lemma run_ops_one_timer b0 ops : forall b,
  pxLedToggleTimer b0 = None -> one_timer b0 b -> OpSleepWake ∉ ops ->
  one_timer b0 (foldl run_op b ops).
Proof.
  induction ops as [|op ops IH]; intros b H0 Hb Hops; simpl; [done|].
  apply not_elem_of_cons in Hops as [Hop Hops].
  apply IH; [done | by apply run_op_one_timer | done].
Qed.

(** X11: as long as the application has not been put to sleep, whatever
    the user asks of the LED, [vLedToggleEnable] creates a timer once only
    and the handle names that live timer; right after a request to toggle
    the timer is running; right after a request to stop it is stopped, the
    LED is off and the expiry of the timer leaves the LED alone. *)
Theorem led_timer_is_created_once b0 ops :
  pxLedToggleTimer b0 = None -> OpSleepWake ∉ ops ->
  let b := foldl run_op b0 ops in
  one_timer b0 b
  /\ (forall ops' d, ops = ops' ++ [OpEnable d] ->
        exists h t, pxLedToggleTimer b = Some h
                    /\ timers b !! h = Some t /\ running t = true)
  /\ (forall ops', ops = ops' ++ [OpDisable] ->
        forall h, pxLedToggleTimer b = Some h ->
          led_on b = false
          /\ (exists t, timers b !! h = Some t /\ running t = false)
          /\ expire h b = b).
Proof.
  intros H0 Hops b. split; [|split].
  - apply run_ops_one_timer; [done | by left | done].
  - intros ops' d ->. unfold b. rewrite foldl_snoc.
    apply not_elem_of_app in Hops as [Hops' _].
    destruct (run_ops_one_timer b0 ops' b0 H0 (or_introl (conj H0 eq_refl)) Hops')
      as [[Hnone ->]|(h & t & Hh & Hfree & Ht)]; simpl.
    + destruct (enable_none d b0 H0) as (Hh & _ & Ht).
      eexists _, _. split; [exact Hh|]. rewrite Ht, lookup_insert_eq. done.
    + destruct (enable_some d _ h t _ Hh Ht) as (Hh' & Ht').
      eexists _, _. split; [exact Hh'|]. rewrite Ht', lookup_insert_eq. done.
  - intros ops' -> h. unfold b. rewrite foldl_snoc.
    apply not_elem_of_app in Hops as [Hops' _].
    destruct (run_ops_one_timer b0 ops' b0 H0 (or_introl (conj H0 eq_refl)) Hops')
      as [[Hnone ->]|(h' & t & Hh & Hfree & Ht)]; simpl.
    + unfold vLedToggleDisable. rewrite H0. congruence.
    + destruct (disable_some _ h' t _ Hh Ht) as (Hh' & Ht' & Hled).
      rewrite Hh'. intros [= <-].
      assert (timers (vLedToggleDisable (foldl run_op b0 ops')) !! h'
              = Some (set_running false t)) as Hlook
        by (by rewrite Ht', lookup_insert_eq).
      split; [done|]. split; [eauto|].
      unfold expire. by rewrite Hlook.
Qed.

Lemma led_timer_is_created_once_witness :
  let b := foldl run_op power_on [OpEnable 500; OpEnable 250; OpDisable] in
  timers b = {[ 0%nat := Timer 500 false ]} /\ led_on b = false
  /\ expire 0 b = b.
Proof.
  destruct (led_timer_is_created_once power_on
              [OpEnable 500; OpEnable 250; OpDisable] eq_refl)
    as (_ & _ & Hstop).
  - intros Hin.
    by repeat (apply elem_of_cons in Hin as [?|Hin]; [done|]);
      apply elem_of_nil in Hin.
  - destruct (Hstop [OpEnable 500; OpEnable 250] eq_refl 0%nat eq_refl)
      as (Hled & _ & Hexpire).
    split; [by vm_compute | exact (conj Hled Hexpire)].
Defined.

End LedFacts.

(** ** Sleeping and waking *)

Module SleepFacts.
Import Board Idle TempMonitor.


End SleepFacts.

(** ** Sessions of the temperature monitor *)

Module SessionFacts.
Import TempMonitor TempMonitorSpec SessionSpec.

Lemma SFltb_nan_r x : SFltb x S754_nan = false.
Proof. by destruct x as [| | |[] ? ?]. Qed.

Lemma SFltb_nan_l x : SFltb S754_nan x = false.
Proof. done. Qed.

Lemma SFltb_number_l x y : SFltb x y = true -> not_a_number x = false.
Proof. destruct x; [done | done | | done]. by rewrite SFltb_nan_l. Qed.

Lemma SFltb_number_r x y : SFltb x y = true -> not_a_number y = false.
Proof. destruct y; [done | done | | done]. by rewrite SFltb_nan_r. Qed.

(** A running turn on a rising reading moves the highest and nothing else. *)
Lemma track_rising r s :
  SFltb (fHighestTemp s) (fCurrentTemp r) = true ->
  fHighestTemp (track r s) = fCurrentTemp r
  /\ (lowest_untouched s -> lowest_untouched (track r s)).
Proof. intros Hup. unfold track. rewrite Hup. by simpl. Qed.

Lemma rising_run rest : forall s,
  Forall (fun c => xRunTempMonitor c.1 = true) rest ->
  ascending (fHighestTemp s) (rest.*2) -> lowest_untouched s ->
  length (monitor_run s rest) = length rest
  /\ Forall lowest_untouched (monitor_run s rest)
  /\ fHighestTemp <$> monitor_run s rest = fCurrentTemp <$> rest.*2.
Proof.
  induction rest as [|[e r] rest IH]; intros s Hrun Hup Hlow; simpl; [done|].
  inversion Hrun as [|? ? He Hrun']; subst. simpl in He, Hup.
  destruct Hup as [Hup Hrest].
  unfold monitor_cycle. rewrite He. simpl.
  destruct (track_rising r s Hup) as [Hhigh Hkeep].
  destruct (IH (track r s) Hrun') as (Hlen & Hall & Htops).
  - by rewrite Hhigh.
  - by apply Hkeep.
  - split; [by rewrite Hlen|]. split; [constructor; auto|].
    simpl. f_equal; [exact Hhigh | exact Htops].
Qed.

(** X13: in a session whose readings only rise (the first above 0.0, each
    one above the one before), every turn makes its reading the highest and,
    since the lowest is tested only when the highest did not move, no turn
    records a lowest: the record keeps the 100.0 of the reset, with the
    zeroed date and time, for the whole session. *)
Theorem rising_session_records_no_lowest s0 e0 r0 rest :
  xRunTempMonitor e0 = false -> notification e0 = true ->
  Forall (fun c => xRunTempMonitor c.1 = true) rest ->
  ascending temp_0 (r0 :: rest.*2) ->
  let session := monitor_run s0 ((e0, r0) :: rest) in
  length session = S (length rest)
  /\ Forall lowest_untouched session
  /\ fHighestTemp <$> session = fCurrentTemp <$> (r0 :: rest.*2).
Proof.
  intros He0 Hn0 Hrun [Hup0 Hup] session. unfold session. simpl.
  unfold monitor_cycle. rewrite He0, Hn0. simpl.
  destruct (track_rising r0 reset_stats Hup0) as [Hhigh Hkeep].
  destruct (rising_run rest (track r0 reset_stats) Hrun) as (Hlen & Hall & Htops).
  - by rewrite Hhigh.
  - by apply Hkeep.
  - split; [by rewrite Hlen|]. split; [constructor; auto|].
    + by apply Hkeep.
    + simpl. f_equal; [exact Hhigh | exact Htops].
Qed.

Lemma rising_session_records_no_lowest_witness :
  Forall lowest_untouched (monitor_run reset_stats warming)
  /\ fHighestTemp <$> monitor_run reset_stats warming
     = [S754_finite false 13107200 (-19); S754_finite false 15728640 (-19);
        S754_finite false 9175040 (-18)].
Proof.
  destruct (rising_session_records_no_lowest reset_stats
              (CycleEnv false true false) (deg 13107200 (-19))
              [ (CycleEnv true false false, deg 15728640 (-19));
                (CycleEnv true false true, deg 9175040 (-18)) ]
              eq_refl eq_refl)
    as (_ & Hlow & Htops).
  - repeat constructor.
  - repeat split.
  - exact (conj Hlow Htops).
Defined.

Lemma track_numbers r s :
  extremes_are_numbers s -> extremes_are_numbers (track r s).
Proof.
  intros [Hh Hl]. unfold track, extremes_are_numbers.
  destruct (SFltb (fHighestTemp s) (fCurrentTemp r)) eqn:Hup; simpl.
  { split; [by eapply SFltb_number_r | done]. }
  destruct (SFltb (fCurrentTemp r) (fLowestTemp s)) eqn:Hdown; simpl.
  { split; [done | by eapply SFltb_number_l]. }
  done.
Qed.

Lemma reset_numbers : extremes_are_numbers reset_stats.
Proof. done. Qed.

(** X14: a reading that is not a number (a measurement that divided zero
    by zero) is above no highest and below no lowest: a running turn leaves
    the record as it was. So the extremes the task holds are numbers in
    every turn, whatever the sensor gives. *)
Theorem readings_that_are_no_numbers_are_ignored s0 cycles :
  extremes_are_numbers s0 ->
  (forall e r s, xRunTempMonitor e = true ->
     not_a_number (fCurrentTemp r) = true ->
     fst <$> monitor_cycle e r s = Some s)
  /\ Forall extremes_are_numbers (monitor_run s0 cycles).
Proof.
  intros Hs0. split.
  - intros e r s He Hnan. unfold monitor_cycle. rewrite He. simpl.
    unfold track. destruct (fCurrentTemp r); try discriminate.
    by rewrite SFltb_nan_r, SFltb_nan_l.
  - revert s0 Hs0. induction cycles as [|[e r] cycles IH]; intros s0 Hs0;
      simpl; [done|].
    unfold monitor_cycle.
    destruct (xRunTempMonitor e); simpl.
    + constructor; [|apply IH]; by apply track_numbers.
    + destruct (notification e); simpl; [|done].
      constructor; [|apply IH]; apply track_numbers, reset_numbers.
Qed.

Lemma readings_that_are_no_numbers_are_ignored_witness :
  fst <$> monitor_cycle (CycleEnv true false false)
            (Reading (RtcTime 17 0 0) (RtcDate 4 12 3 20) S754_nan) after_25
  = Some after_25.
Proof.
  destruct (readings_that_are_no_numbers_are_ignored reset_stats three_cycles)
    as [Hignored _].
  - split; reflexivity.
  - apply Hignored; reflexivity.
Defined.

End SessionFacts.

(** ** The game *)

Module GameFacts.
Import Uart UartSpec EntrySpec Game GameSpec IntFacts.

Lemma wrap_u32_succ n : Int.wrap_u32 (Int.wrap_u32 n + 1) = Int.wrap_u32 (n + 1).
Proof. unfold Int.wrap_u32. by rewrite Zplus_mod_idemp_l. Qed.

(** The inner loop: it answers every wrong guess, stops on the first guess
    that does not ask for another, and counts the reads. *)
Lemma guess_loop_spec sel next : forall g n p,
  guess_loop sel g next (Int.wrap_u32 n) = Some p ->
  exists wrong,
    g :: next = wrong ++ last_guess p :: unread p
    /\ Forall (fun g => guess_again sel g = true) wrong
    /\ guess_again sel (last_guess p) = false
    /\ posts p = flat_map (reply sel) wrong
    /\ attempts p = Int.wrap_u32 (n + Z.of_nat (length wrong)).
Proof.
  induction next as [|g' next IH]; intros g n p Hloop.
  - simpl in Hloop. destruct (guess_again sel g) eqn:Hg; [done|].
    injection Hloop as <-. exists []. simpl. by rewrite Z.add_0_r.
  - cbn [guess_loop] in Hloop. destruct (guess_again sel g) eqn:Hg.
    + rewrite wrap_u32_succ in Hloop.
      destruct (guess_loop sel g' next _) as [p'|] eqn:Hrest; [|done].
      simpl in Hloop. injection Hloop as <-. simpl.
      apply IH in Hrest as (wrong & Hsplit & Hwrong & Hlast & Hposts & Hcount).
      exists (g :: wrong). simpl. rewrite Hsplit, Hposts, Hcount.
      repeat split; try done; [by constructor | f_equal; lia].
    + injection Hloop as <-. exists []. simpl. by rewrite Z.add_0_r.
Qed.

(** X15: one game, from the reads it used. The task posts its first
    prompt, then for every wrong guess one verdict and one new prompt; it
    stops on the first guess that is the number, or whose read failed, or
    that came with the quit flag; it posts the closing message exactly when
    that last guess is the number, read failure and quit included, with the
    number of reads as the attempts. *)
Theorem game_round_replies rand reads quit posted left :
  game_round rand reads = Some (quit, posted, left) ->
  let ucSelectedNum := select_number rand in
  exists wrong last_read,
    reads = wrong ++ last_read :: left
    /\ Forall (fun g => guess_again ucSelectedNum g = true) wrong
    /\ guess_again ucSelectedNum last_read = false
    /\ quit = xQuitCurrentApp last_read
    /\ posted
       = MsgGameIntro :: flat_map (reply ucSelectedNum) wrong
         ++ (if lUserGuess last_read =? ucSelectedNum
             then [MsgCorrect (Int.wrap_u32 (Z.of_nat (S (length wrong))))]
             else []).
Proof.
  intros Hround sel. unfold game_round in Hround.
  destruct reads as [|g next]; [done|]. fold sel in Hround.
  destruct (guess_loop sel g next _) as [p|] eqn:Hloop; [|done].
  simpl in Hround. injection Hround as <- <- <-.
  apply guess_loop_spec in Hloop
    as (wrong & Hsplit & Hwrong & Hlast & Hposts & Hcount).
  exists wrong, (last_guess p). rewrite Hposts, Hcount.
  repeat split; try done.
  by replace (0 + 1 + Z.of_nat (length wrong))
    with (Z.of_nat (S (length wrong))) by lia.
Qed.

Lemma game_round_replies_witness :
  game_round 33 three_guesses
  = Some (false,
          [MsgGameIntro; MsgTooHigh; MsgGuessAgain; MsgTooLow; MsgGuessAgain;
           MsgCorrect 3], [])
  /\ exists wrong last_read,
       three_guesses = wrong ++ last_read :: []
       /\ Forall (fun g => guess_again (select_number 33) g = true) wrong
       /\ guess_again (select_number 33) last_read = false.
Proof.
  split; [reflexivity|].
  destruct (game_round_replies 33 three_guesses false
              [MsgGameIntro; MsgTooHigh; MsgGuessAgain; MsgTooLow;
               MsgGuessAgain; MsgCorrect 3] [] eq_refl)
    as (wrong & last_read & Hsplit & Hwrong & Hlast & _).
  exists wrong, last_read. exact (conj Hsplit (conj Hwrong Hlast)).
Defined.

Lemma select_number_range rand : 0 <= rand -> 0 <= select_number rand <= 25.
Proof.
  intros Hrand. unfold select_number, Int.wrap_u8.
  pose proof (Z.rem_bound_pos rand 26 Hrand ltac:(lia)) as Hrem.
  rewrite Z.mod_small; lia.
Qed.

Section Facts.
Context `{Config}.

#[local] Arguments xReceiveUartMsg : simpl never.

(** X16: the guess is what the parser returns, cut to a [uint8_t]. A number
    typed in time is taken modulo 256. A line typed in time that starts
    with no digit (the empty line too) is not rejected: it is the guess
    255, which is never the number, asks for another guess and is answered
    "too high". *)
Theorem guess_is_taken_modulo_256 w bs w' :
  answers 150 w bs w' ->
  (number bs ->
     read_guess false w
     = Done (Guess true false (value_from 0 bs mod 256)) w')
  /\ (Chr.is_digit (hd 0 bs) = false ->
      Chr.is_quit_letter (default 0 (last bs)) = false ->
      read_guess false w = Done (Guess true false 255) w'
      /\ forall rand, 0 <= rand ->
           guess_again (select_number rand) (Guess true false 255) = true
           /\ verdict (select_number rand) (Guess true false 255) = MsgTooHigh).
Proof.
  intros Hans. split.
  - intros Hnum.
    destruct (EntryFacts.answers_number 150 false w bs w' Hnum)
      as (m & Hread & Hparse); [destruct Hnum; lia | done |].
    unfold read_guess, mbind, task_bind, in_bounds. by rewrite Hread, Hparse.
  - intros Hfirst Hquit.
    pose proof (EntryFacts.answers_read 150 false _ _ _ Hans) as Hread.
    destruct (EntryFacts.answers_bytes _ _ _ _ Hans) as [_ Hfit].
    rewrite Hquit in Hread. simpl in Hread. split.
    + unfold read_guess, mbind, task_bind, in_bounds. rewrite Hread.
      assert (lUartMsgtoInt32 (bs ++ replicate (150 - length bs) 0)
              = Some Int.INVALID_NUM) as ->; [|done].
      destruct bs as [|b bs]; [done|]. simpl in Hfirst |- *.
      unfold lUartMsgtoInt32. simpl. by rewrite Hfirst.
    + intros rand Hrand. pose proof (select_number_range rand Hrand) as Hsel.
      unfold guess_again, verdict.
      cbn [lUserGuess xReadSuccess xQuitCurrentApp].
      replace (255 =? select_number rand) with false
        by (symmetry; apply Z.eqb_neq; lia).
      by replace (select_number rand <? 255) with true
        by (symmetry; apply Z.ltb_lt; lia).
Qed.

End Facts.

Lemma guess_is_taken_modulo_256_witness :
  @read_guess nucleo false (console (typed 5 [51; 48; 48]))
  = Done (Guess true false 44) (World 20 [] [] true []).
Proof.
  refine (proj1 (@guess_is_taken_modulo_256 nucleo
                   (console (typed 5 [51; 48; 48])) [51; 48; 48]
                   (World 20 [] [] true []) _) _).
  - EntryFacts.typed_in_time [(5, 51); (5, 48); (5, 48)] 5.
  - split; [simpl; lia | repeat constructor].
Defined.

End GameFacts.

(** ** The deadline at the wrap of the tick count *)

Module DeadlineFacts.
Import Uart UartSpec IntFacts.

Section Facts.
Context `{Config}.

(** X17: the deadline is computed in [TickType_t] arithmetic. When the tick
    count is within 30 seconds of its wrap, the deadline wraps and lies
    before the current tick: [xReceiveUartMsg] reads nothing, posts the
    timeout notice at once and returns [pdFALSE], with the buffer and the
    flag as they were. *)
Theorem deadline_wraps_with_the_tick_count buf q w :
  0 <= tick w < 2 ^ 32 -> 2 ^ 32 <= tick w + pdMS_TO_TICKS 30000 ->
  xReceiveUartMsg buf q w = Done (false, buf, q) (post MsgUserInputTimeout w).
Proof.
  intros Ht Hwrap. pose proof (pdMS_TO_TICKS_range 30000) as Hd.
  unfold xReceiveUartMsg, mbind, task_bind, xTaskGetTickCount, receive.
  assert (Int.wrap_u32 (tick w + pdMS_TO_TICKS 30000)
          = tick w + pdMS_TO_TICKS 30000 - 2 ^ 32) as ->.
  { unfold Int.wrap_u32. symmetry. apply (Z.mod_unique_pos _ _ 1); lia. }
  assert ((tick w <? tick w + pdMS_TO_TICKS 30000 - 2 ^ 32) = false) as Hover
    by (apply Z.ltb_ge; lia).
  destruct w as [t pending queue ready written]. simpl in *.
  destruct pending as [|[wait data] rest]; simpl; rewrite Hover; simpl;
    by rewrite Hover.
Qed.

End Facts.

Lemma deadline_wraps_with_the_tick_count_witness :
  @xReceiveUartMsg nucleo (memset0 50) false
    (World 4294957296 (typed 5 [49]) [] true [])
  = Done (false, memset0 50, false)
      (World 4294957296 (typed 5 [49]) [MsgUserInputTimeout] true []).
Proof.
  apply (@deadline_wraps_with_the_tick_count nucleo (memset0 50) false
           (World 4294957296 (typed 5 [49]) [] true [])).
  - simpl. lia.
  - vm_compute. discriminate.
Defined.

End DeadlineFacts.

(** ** Starting and stopping the temperature monitor *)

Module TempControlFacts.
Import Uart TempMonitor TempControl.

(** While the run flag is set the monitor task never waits: a pending
    notification stays pending. *)
Lemma running_turns readings : forall f s,
  xRunTempMonitor f = true ->
  exists f' s',
    monitor_turns f s readings = Some (f', s')
    /\ xRunTempMonitor f' = true
    /\ (readings <> [] -> xShowTemps f' = false)
    /\ (readings = [] -> f' = f)
    /\ monitor_notified f' = monitor_notified f.
Proof.
  induction readings as [|r rest IH]; intros f s Hrun; simpl.
  - by exists f, s.
  - unfold monitor_turn, monitor_cycle. simpl. rewrite Hrun. simpl.
    destruct (IH (Flags true false (monitor_notified f)) (track r s) eq_refl)
      as (f' & s' & Hturns & Hrun' & Hshow & Hsame & Hnote).
    exists f', s'. repeat split; try done.
    intros _. destruct rest; [by rewrite Hsame | by apply Hshow].
Qed.

Section Facts.
Context `{Config}.

#[local] Arguments xReceiveUartMsg : simpl never.

(** The menu of the monitor answered in time with one byte that is no quit
    letter: the switch is taken on that byte less 48. *)
Lemma vManageTempMonitor_answer f w c w1 :
  EntrySpec.answers 150 w [c] w1 -> Chr.is_quit_letter c = false ->
  48 <= c < 256 ->
  vManageTempMonitor f w
  = ('(f', posted) ← manage (c - 48) f; mret (f', MsgMonitorMenu :: posted)) w1.
Proof.
  intros Hans Hquit Hc.
  pose proof (EntryFacts.answers_read 150 false _ _ _ Hans) as Hread.
  simpl in Hread. rewrite Hquit in Hread.
  unfold vManageTempMonitor, mbind at 1, task_bind at 1. rewrite Hread.
  simpl. unfold Int.wrap_u8. by rewrite Z.mod_small by lia.
Qed.

(** X18: asking to start the monitor while it is running (the answer 1 to
    its menu) leaves a notification pending, whatever number of turns the
    monitor task takes afterwards. A later request to stop it (the answer
    3) clears the run flag and posts "stopped", but at its next turn the
    monitor task takes the pending notification at once: it does not
    block, sets the run flag again and goes on, from reset statistics. *)
Theorem second_start_defeats_stop f s readings r w w1 w' w3 :
  xRunTempMonitor f = true ->
  EntrySpec.answers 150 w [49] w1 -> EntrySpec.answers 150 w' [51] w3 ->
  exists f1 w1' f2 s2 f3 reports,
    vManageTempMonitor f w
    = Done (f1, [MsgMonitorMenu; MsgMonitorStarted]) w1'
    /\ monitor_turns f1 s readings = Some (f2, s2)
    /\ vManageTempMonitor f2 w'
       = Done (f3, [MsgMonitorMenu; MsgMonitorStopped]) w3
    /\ xRunTempMonitor f3 = false
    /\ monitor_turn f3 r s2
       = Some (Flags true false false, track r reset_stats, reports).
Proof.
  intros Hrun Hstart Hstop.
  destruct (running_turns readings (Flags (xRunTempMonitor f) (xShowTemps f) true)
              s Hrun) as (f2 & s2 & Hturns & Hrun2 & _ & _ & Hnote).
  simpl in Hnote.
  eexists _, _, f2, s2, _, _.
  split; [by rewrite (vManageTempMonitor_answer f w 49 w1)|].
  split; [exact Hturns|].
  split; [by rewrite (vManageTempMonitor_answer f2 w' 51 w3)|].
  split; [reflexivity|].
  unfold monitor_turn, monitor_cycle. simpl. rewrite Hnote. reflexivity.
Qed.

End Facts.

Lemma second_start_defeats_stop_witness :
  exists f3 reports,
    xRunTempMonitor f3 = false
    /\ monitor_turn f3 (TempMonitorSpec.deg 15728640 (-19))
         TempMonitorSpec.after_25
       = Some (Flags true false false,
               track (TempMonitorSpec.deg 15728640 (-19)) reset_stats, reports).
Proof.
  destruct (@second_start_defeats_stop nucleo (Flags true false false)
              reset_stats [TempMonitorSpec.deg 13107200 (-19)]
              (TempMonitorSpec.deg 15728640 (-19))
              (console (UartSpec.typed 5 [49])) (World 10 [] [] true [])
              (console (UartSpec.typed 5 [51])) (World 10 [] [] true [])
              eq_refl)
    as (f1 & w1 & f2 & s2 & f3 & reports & H1 & H2 & H3 & H4 & H5).
  - EntryFacts.typed_in_time [(5, 49)] 5.
  - EntryFacts.typed_in_time [(5, 51)] 5.
  - injection H1 as <- _. injection H2 as <- <-.
    exists f3, reports. exact (conj H4 H5).
Defined.

End TempControlFacts.

(** ** The Main Menu task does not wait in vain *)

Module HandoffProgress.
Import Handoff HandoffSpec.

(** X19: in every state the handoff reaches, with or without sleep, a Main
    Menu task that waits for a sub-application does not wait in vain. With
    a notification pending - the return notification of a sub-application,
    or one left by the wake interrupt - its wait returns and it is back in
    its loop. With none, the sub-application it waits for is active: it is
    in its loop, or holds the run notification that takes it there; when it
    quits it sends its return notification and the Main Menu task resumes:
    a return notification is never lost. *)
Theorem menu_does_not_wait_in_vain es s a :
  run es boot = Some s -> menu s = MenuWait a ->
  if menu_notified s
  then exists s', step MenuResume s = Some s' /\ menu s' = MenuLoop
  else active s a = true
       /\ exists s',
            run (match pc s a with
                 | AppWait => [AppStart a; AppQuit a; MenuResume]
                 | AppLoop => [AppQuit a; MenuResume]
                 end) s = Some s'
            /\ menu s' = MenuLoop /\ returns s' a = S (returns s a).
Proof.
  intros Hrun Hmenu.
  pose proof (HandoffFacts.run_waits es boot s HandoffFacts.waits_boot Hrun a
                Hmenu) as Hw.
  destruct (menu_notified s) eqn:Hn.
  - eexists. simpl. by rewrite Hmenu, Hn.
  - specialize (Hw eq_refl). split; [done|].
    unfold active in Hw. destruct (pc s a) eqn:Hpc.
    + eexists. simpl. rewrite Hpc, Hw. simpl.
      unfold upd at 1. rewrite decide_True by done. simpl.
      rewrite Hmenu. simpl. split; [reflexivity|]. simpl.
      split; [done|]. unfold upd. by rewrite decide_True.
    + eexists. simpl. rewrite Hpc. simpl.
      rewrite Hmenu. simpl. split; [reflexivity|]. simpl.
      split; [done|]. unfold upd. by rewrite decide_True.
Qed.

Lemma menu_does_not_wait_in_vain_witness :
  exists s s',
    run [Select 50; AppStart Game; AppRound Game] boot = Some s
    /\ run [AppQuit Game; MenuResume] s = Some s'
    /\ menu s' = MenuLoop /\ returns s' Game = 1%nat.
Proof.
  eexists.
  destruct (menu_does_not_wait_in_vain
              [Select 50; AppStart Game; AppRound Game] _ Game eq_refl eq_refl)
    as (_ & s' & Hrun & Hmenu & Hreturns).
  exists s'. exact (conj eq_refl (conj Hrun (conj Hmenu Hreturns))).
Defined.

End HandoffProgress.

(** ** Setting the alarm *)

Module AlarmFacts.
Import Uart UartSpec Clock Alarm RtcSpec AlarmSpec.

Section Facts.
Context `{Config}.

#[local] Arguments xReceiveUartMsg : simpl never.



End Facts.


End AlarmFacts.

(** ** Quitting the calculator *)

Module CalculatorQuit.
Import Uart UartSpec Calculator QuitSpec.

Section Facts.
Context `{Config}.

#[local] Arguments xReceiveUartMsg : simpl never.
#[local] Arguments post : simpl never.

(** Takes one step of the round apart: the prompt, the read and what the
    read posted. *)
Ltac prompt_step Hrun Hposts :=
  unfold mbind at 1, task_bind at 1, xQueueSend at 1 in Hrun;
  unfold mbind at 1, task_bind at 1 in Hrun;
  match type of Hrun with
  | context [xReceiveUartMsg ?buf ?q ?w] =>
      pose proof (UartFacts.xReceiveUartMsg_posts buf q w) as Hposts;
      destruct (xReceiveUartMsg buf q w) as [[[[] ?] ?] ?| |];
      [| |discriminate Hrun..]
  end.

Ltac parse_step Hrun :=
  unfold mbind at 1, task_bind at 1, in_bounds at 1 in Hrun;
  match type of Hrun with
  | context [lUartMsgtoInt32 ?m] =>
      destruct (lUartMsgtoInt32 m); [|discriminate Hrun]
  end.

Ltac only_prompts :=
  repeat constructor; unfold prompt_or_timeout; set_solver.

(** X21: a round of the calculator that ends with the quit flag raised has
    posted prompts and, at most, timeout notices: no result and no
    unrecognized-operator notice. *)
Theorem quit_round_posts_no_result w w' :
  calculator_round false w = Done true w' ->
  exists added,
    uart_queue w' = uart_queue w ++ added /\ Forall prompt_or_timeout added.
Proof.
  intros Hrun. unfold calculator_round in Hrun.
  prompt_step Hrun Hp1.
  2: { parse_step Hrun. simpl in Hrun. injection Hrun as _ <-.
       exists [MsgCalcFirstInteger; MsgUserInputTimeout].
       rewrite Hp1. unfold post. simpl. rewrite <- app_assoc.
       split; [done | only_prompts]. }
  parse_step Hrun.
  match type of Hrun with
  | (if ?c then _ else _) _ = _ => destruct c eqn:Hc1
  end.
  2: { injection Hrun as _ <-. exists [MsgCalcFirstInteger].
       rewrite Hp1. split; [done | only_prompts]. }
  prompt_step Hrun Hp2.
  2: { parse_step Hrun. simpl in Hrun. injection Hrun as _ <-.
       exists [MsgCalcFirstInteger; MsgCalcSecondInteger; MsgUserInputTimeout].
       rewrite Hp2. unfold post. simpl. rewrite Hp1. unfold post. simpl.
       rewrite <- !app_assoc. split; [done | only_prompts]. }
  parse_step Hrun.
  match type of Hrun with
  | (if ?c then _ else _) _ = _ => destruct c eqn:Hc2
  end.
  2: { injection Hrun as _ <-.
       exists [MsgCalcFirstInteger; MsgCalcSecondInteger].
       rewrite Hp2. unfold post. simpl. rewrite Hp1. unfold post. simpl.
       rewrite <- !app_assoc. split; [done | only_prompts]. }
  prompt_step Hrun Hp3.
  2: { simpl in Hrun. injection Hrun as _ <-.
       exists [MsgCalcFirstInteger; MsgCalcSecondInteger; MsgCalcOperator;
               MsgUserInputTimeout].
       rewrite Hp3. unfold post. simpl. rewrite Hp2. unfold post. simpl.
       rewrite Hp1. unfold post. simpl.
       rewrite <- !app_assoc. split; [done | only_prompts]. }
  match type of Hrun with
  | (if ?c then _ else _) _ = _ => destruct c eqn:Hc3
  end.
  - apply andb_true_iff in Hc3 as [_ Hq]. apply negb_true_iff in Hq. subst.
    unfold mbind, task_bind in Hrun.
    by destruct (calculate _ _ _ _).
  - injection Hrun as _ <-.
    exists [MsgCalcFirstInteger; MsgCalcSecondInteger; MsgCalcOperator].
    rewrite Hp3. unfold post. simpl. rewrite Hp2. unfold post. simpl.
    rewrite Hp1. unfold post. simpl.
    rewrite <- !app_assoc. split; [done | only_prompts].
Qed.

End Facts.

Lemma quit_round_posts_no_result_witness :
  exists added,
    [MsgCalcFirstInteger; MsgCalcSecondInteger] = [] ++ added
    /\ Forall prompt_or_timeout added.
Proof.
  apply (@quit_round_posts_no_result nucleo
           (console (typed 5 [55] ++ typed 5 [Chr.lower_q]))
           (World 20 [] [MsgCalcFirstInteger; MsgCalcSecondInteger] true [])).
  vm_compute. reflexivity.
Defined.

End CalculatorQuit.
